(** * Email tools of the WatsonX Orchestrate agent: a shallow embedding

    The development follows [python_tools/Email_tools/email_tools.py].
    Python values are modelled as the code has them: a [str] is a sequence of
    Unicode code points, [bytes] a sequence of octets, [None]-able values are
    options, the result dictionaries are records whose optional keys are
    options.  Calls into [smtplib], [imaplib] and the clock are the events of a
    small free monad with exceptions; a [world] answers every call, and may
    answer it by raising. *)

From Stdlib Require Import List ZArith NArith Lia Bool String Ascii Strings.Byte.
From Stdlib Require Import DecimalString.
Import ListNotations.

Set Implicit Arguments.
Local Open Scope Z_scope.

(** ** Python strings and bytes *)

Module Py.

(** A character is a code point, a [str] is a list of them,
    [len] is [List.length]. *)
Definition char := N.
Definition str := list char.
Definition bytes := list byte.

(** An ASCII literal of the source as a [str]. *)
Definition lit (s : string) : str :=
  map N_of_ascii (list_ascii_of_string s).

Fixpoint str_eqb (a b : str) : bool :=
  match a, b with
  | [], [] => true
  | x :: a', y :: b' => N.eqb x y && str_eqb a' b'
  | _, _ => false
  end.

(** Truth value of an optional string: [None] and [""] are falsy. *)
Definition truthy (o : option str) : bool :=
  match o with
  | Some (_ :: _) => true
  | _ => false
  end.

(** [x or d] for an optional string [x]. *)
Definition or_default (o : option str) (d : str) : str :=
  match o with
  | Some (c :: s) => c :: s
  | _ => d
  end.

(** [str(n)] for an integer. *)
Definition str_of_Z (z : Z) : str :=
  lit (NilZero.string_of_int (Z.to_int z)).

(** [str(x)] for an optional string: [None] prints as ["None"]. *)
Definition str_of_opt (o : option str) : str :=
  match o with
  | Some s => s
  | None => lit "None"
  end.

(** [sep.join(l)]. *)
Fixpoint join (sep : str) (l : list str) : str :=
  match l with
  | [] => []
  | [x] => x
  | x :: r => x ++ sep ++ join sep r
  end.

(** [s.split(sep)] for a one-character separator: every occurrence cuts,
    empty fields are kept, and the empty string gives [['']]. *)
Fixpoint split_on (sep : char) (s : str) : list str :=
  match s with
  | [] => [[]]
  | c :: r =>
      if N.eqb c sep then [] :: split_on sep r
      else match split_on sep r with
           | h :: t => (c :: h) :: t
           | [] => [[c]]
           end
  end.

Definition comma : char := 44%N.

(** ASCII whitespace of [bytes.split()]: space, tab, newline, carriage
    return, vertical tab, form feed. *)
Definition is_space_byte (b : byte) : bool :=
  let n := Byte.to_N b in
  (N.eqb n 32 || (N.leb 9 n && N.leb n 13))%bool.

(** [b.split()] with no argument: runs of whitespace separate, no empty
    field is produced.  [cur] holds the current field, reversed. *)
Fixpoint split_ws_from (cur : bytes) (b : bytes) : list bytes :=
  match b with
  | [] => match cur with [] => [] | _ => [rev cur] end
  | x :: r =>
      if is_space_byte x then
        match cur with
        | [] => split_ws_from [] r
        | _ => rev cur :: split_ws_from [] r
        end
      else split_ws_from (x :: cur) r
  end.

Definition split_ws (b : bytes) : list bytes := split_ws_from [] b.

(** Whitespace of [str.strip()]. *)
Definition is_space_char (c : char) : bool :=
  ((N.leb 9 c && N.leb c 13) || (N.leb 28 c && N.leb c 32)
   || N.eqb c 133 || N.eqb c 160 || N.eqb c 5760
   || (N.leb 8192 c && N.leb c 8202) || N.eqb c 8232 || N.eqb c 8233
   || N.eqb c 8239 || N.eqb c 8287 || N.eqb c 12288)%bool.

Fixpoint lstrip (s : str) : str :=
  match s with
  | c :: r => if is_space_char c then lstrip r else s
  | [] => []
  end.

Definition strip (s : str) : str := rev (lstrip (rev (lstrip s))).

(** [l[i:]] for a possibly negative [i]. *)
Definition slice_from (A : Type) (l : list A) (i : Z) : list A :=
  let n := Z.of_nat (List.length l) in
  let start := if i <? 0 then Z.max (n + i) 0 else Z.min i n in
  skipn (Z.to_nat start) l.

(** [s[:n]] for [n >= 0]. *)
Definition slice_to (A : Type) (l : list A) (n : nat) : list A := firstn n l.

End Py.
Import Py.

(** ** The UTF-8 codec of [bytes.decode('utf-8', errors=...)]

    The scanner follows CPython's decoder: it reads one lead byte, checks the
    continuation bytes it needs one at a time, and cuts the input into decoded
    characters and undecodable pieces.  An undecodable piece is the lead byte
    alone (invalid start byte), the bytes read before the first wrong
    continuation byte, or the whole rest of the input when it stops in the
    middle of a well-formed prefix (unexpected end of data). *)

Module Utf8.

Local Open Scope N_scope.

Inductive reason := InvalidStart | InvalidContinuation | UnexpectedEnd.

Inductive chunk :=
| Decoded (c : char) (src : bytes)
| Undecodable (bad : bytes) (why : reason).

Definition is_cont (b : N) : bool := (128 <=? b) && (b <? 192).

Definition cp2 (b0 b1 : N) : char :=
  N.lor (N.shiftl (N.land b0 31) 6) (N.land b1 63).
Definition cp3 (b0 b1 b2 : N) : char :=
  N.lor (N.shiftl (N.land b0 15) 12)
        (N.lor (N.shiftl (N.land b1 63) 6) (N.land b2 63)).
Definition cp4 (b0 b1 b2 b3 : N) : char :=
  N.lor (N.shiftl (N.land b0 7) 18)
        (N.lor (N.shiftl (N.land b1 63) 12)
               (N.lor (N.shiftl (N.land b2 63) 6) (N.land b3 63))).

Fixpoint scan (s : bytes) : list chunk :=
  match s with
  | [] => []
  | x0 :: s1 =>
    let b0 := Byte.to_N x0 in
    if b0 <? 128 then Decoded b0 [x0] :: scan s1
    else if b0 <? 194 then Undecodable [x0] InvalidStart :: scan s1
    else if b0 <? 224 then
      match s1 with
      | [] => [Undecodable s UnexpectedEnd]
      | x1 :: s2 =>
        let b1 := Byte.to_N x1 in
        if is_cont b1 then Decoded (cp2 b0 b1) [x0; x1] :: scan s2
        else Undecodable [x0] InvalidContinuation :: scan s1
      end
    else if b0 <? 240 then
      match s1 with
      | [] => [Undecodable s UnexpectedEnd]
      | x1 :: s2 =>
        let b1 := Byte.to_N x1 in
        if negb (is_cont b1)
           || (if b1 <? 160 then b0 =? 224 else b0 =? 237)
        then Undecodable [x0] InvalidContinuation :: scan s1
        else
          match s2 with
          | [] => [Undecodable s UnexpectedEnd]
          | x2 :: s3 =>
            let b2 := Byte.to_N x2 in
            if is_cont b2 then Decoded (cp3 b0 b1 b2) [x0; x1; x2] :: scan s3
            else Undecodable [x0; x1] InvalidContinuation :: scan s2
          end
      end
    else if b0 <? 245 then
      match s1 with
      | [] => [Undecodable s UnexpectedEnd]
      | x1 :: s2 =>
        let b1 := Byte.to_N x1 in
        if negb (is_cont b1)
           || (if b1 <? 144 then b0 =? 240 else b0 =? 244)
        then Undecodable [x0] InvalidContinuation :: scan s1
        else
          match s2 with
          | [] => [Undecodable s UnexpectedEnd]
          | x2 :: s3 =>
            let b2 := Byte.to_N x2 in
            if negb (is_cont b2)
            then Undecodable [x0; x1] InvalidContinuation :: scan s2
            else
              match s3 with
              | [] => [Undecodable s UnexpectedEnd]
              | x3 :: s4 =>
                let b3 := Byte.to_N x3 in
                if is_cont b3 then Decoded (cp4 b0 b1 b2 b3) [x0; x1; x2; x3]
                     :: scan s4
                else Undecodable [x0; x1; x2] InvalidContinuation :: scan s3
              end
          end
      end
    else Undecodable [x0] InvalidStart :: scan s1
  end.

(** The error handlers of [decode]. *)
Inductive errors := Strict | Ignore | Replace.

Definition replacement_character : char := 65533.

(** What a [UnicodeDecodeError] carries: where, which bytes, why. *)
Record decode_error := DecodeError
  { err_start : nat; err_bytes : bytes; err_reason : reason }.

(** The handlers applied to the scanned input, [pos] being the offset of
    the next chunk: [Strict] stops at the first undecodable piece,
    [Ignore] passes over it, [Replace] writes U+FFFD for it. *)
Fixpoint assemble (mode : errors) (pos : nat) (cs : list chunk)
  : decode_error + str :=
  match cs with
  | [] => inr []
  | Decoded c src :: r =>
      match assemble mode (pos + List.length src) r with
      | inr t => inr (c :: t)
      | inl e => inl e
      end
  | Undecodable bad why :: r =>
      match mode with
      | Strict => inl (DecodeError pos bad why)
      | Ignore => assemble mode (pos + List.length bad) r
      | Replace =>
          match assemble mode (pos + List.length bad) r with
          | inr t => inr (replacement_character :: t)
          | inl e => inl e
          end
      end
  end.

Definition decode (mode : errors) (s : bytes) : decode_error + str :=
  assemble mode 0 (scan s).

(** What a chunk contributes when undecodable pieces are written as
    [gap]: nothing for [Ignore], U+FFFD for [Replace]. *)
Definition render (gap : str) (k : chunk) : str :=
  match k with
  | Decoded c _ => [c]
  | Undecodable _ _ => gap
  end.

(** The bytes of the pieces that decoded. *)
Definition kept_bytes (cs : list chunk) : bytes :=
  flat_map (fun k => match k with
                     | Decoded _ src => src
                     | Undecodable _ _ => []
                     end) cs.

Definition is_undecodable (k : chunk) : bool :=
  match k with
  | Undecodable _ _ => true
  | Decoded _ _ => false
  end.

(** The bytes a chunk was cut from. *)
Definition chunk_bytes (k : chunk) : bytes :=
  match k with
  | Decoded _ src => src
  | Undecodable bad _ => bad
  end.

(** A decoded chunk is read back the same in front of any input. *)
Definition chunk_ok (k : chunk) : Prop :=
  match k with
  | Decoded c src =>
      forall rest, scan (src ++ rest) = Decoded c src :: scan rest
  | Undecodable _ _ => True
  end.

(** Text of the error, as [str(e)] prints it. *)
Definition reason_text (r : reason) : str :=
  match r with
  | InvalidStart => lit "invalid start byte"
  | InvalidContinuation => lit "invalid continuation byte"
  | UnexpectedEnd => lit "unexpected end of data"
  end.

Definition hex_digit (n : N) : char :=
  if n <? 10 then 48 + n else 87 + n.

Definition hex2 (b : byte) : str :=
  let n := Byte.to_N b in [hex_digit (n / 16); hex_digit (n mod 16)].

Definition error_text (e : decode_error) : str :=
  match err_bytes e with
  | [b] =>
      lit "'utf-8' codec can't decode byte 0x" ++ hex2 b
      ++ lit " in position " ++ str_of_Z (Z.of_nat (err_start e))
      ++ lit ": " ++ reason_text (err_reason e)
  | bad =>
      lit "'utf-8' codec can't decode bytes in position "
      ++ str_of_Z (Z.of_nat (err_start e)) ++ lit "-"
      ++ str_of_Z (Z.of_nat (err_start e + List.length bad) - 1)
      ++ lit ": " ++ reason_text (err_reason e)
  end.

End Utf8.

(** ** Exceptions

    The [except] clauses of the module tell four kinds of [Exception] apart:
    [smtplib.SMTPAuthenticationError], the other [smtplib.SMTPException]s,
    [imaplib.IMAP4.error] (with its subclasses) and everything else.
    [exn_text] is [str(e)]. *)

Module Exn.

Inductive exn_class :=
| SMTPAuthenticationError
| SMTPException
| IMAP4_error
| OtherException.

Record exn := mkExn { exn_class_of : exn_class; exn_text : str }.

(** [isinstance(e, smtplib.SMTPAuthenticationError)] *)
Definition is_SMTPAuthenticationError (e : exn) : bool :=
  match exn_class_of e with SMTPAuthenticationError => true | _ => false end.

(** [isinstance(e, smtplib.SMTPException)]: the authentication error is
    one of them. *)
Definition is_SMTPException (e : exn) : bool :=
  match exn_class_of e with
  | SMTPAuthenticationError | SMTPException => true
  | _ => false
  end.

(** [isinstance(e, imaplib.IMAP4.error)] *)
Definition is_IMAP4_error (e : exn) : bool :=
  match exn_class_of e with IMAP4_error => true | _ => false end.

(** Errors the interpreter raises by itself; all fall under
    [except Exception]. *)
Definition IndexError (t : str) := mkExn OtherException t.
Definition TypeError (t : str) := mkExn OtherException t.
Definition AttributeError (t : str) := mkExn OtherException t.
Definition ValueError (t : str) := mkExn OtherException t.
Definition KeyError (t : str) := mkExn OtherException t.
Definition UnicodeDecodeError (e : Utf8.decode_error) :=
  mkExn OtherException (Utf8.error_text e).
Definition UnicodeEncodeError (t : str) := mkExn OtherException t.

End Exn.
Import Exn.

(** ** Values of the mail libraries *)

(** A parsed [email.message.Message]: its header fields in order, what
    [get_content_type()] and [get_payload(decode=True)] return, and the
    sub-messages when [is_multipart()]. *)
#[warnings="-register-all"]
Inductive Message : Type := mkMessage
  { headers : list (str * str);
    content_type : str;
    decoded_payload : option bytes;
    subparts : option (list Message) }.

(** One element of the data list of an IMAP [fetch] response: a pair of
    [bytes] (envelope, literal), a lone [bytes], or [None]. *)
Inductive fetch_item :=
| FetchPair (envelope literal : bytes)
| FetchBytes (b : bytes)
| FetchNone.

(** A [MIMEText] part: its text and its subtype. *)
Record MIMEText := mkMIMEText { text_body : str; text_subtype : str }.

(** The code points U+D800 to U+DFFF, which no codec encodes. *)
Definition is_surrogate (c : char) : bool :=
  (N.leb 55296 c && N.leb c 57343)%bool.

Definition hex_digit (n : N) : char :=
  if N.ltb n 10 then (48 + n)%N else (87 + n)%N.

(** The escape of a surrogate as [repr] writes it: a backslash, [u] and
    four hexadecimal digits. *)
Definition escape_u4 (c : char) : str :=
  lit "\u"
  ++ [hex_digit (N.modulo (N.div c 4096) 16);
      hex_digit (N.modulo (N.div c 256) 16);
      hex_digit (N.modulo (N.div c 16) 16);
      hex_digit (N.modulo c 16)].

(** The number of surrogates a text starts with. *)
Fixpoint surrogate_run (s : str) : Z :=
  match s with
  | [] => 0
  | c :: r => if is_surrogate c then 1 + surrogate_run r else 0
  end.

(** The first run of surrogates of a text: where it starts and how long it
    is, with its first character. *)
Fixpoint first_surrogates (pos : Z) (s : str) : option (Z * char * Z) :=
  match s with
  | [] => None
  | c :: r =>
      if is_surrogate c then Some (pos, c, 1 + surrogate_run r)
      else first_surrogates (pos + 1) r
  end.

(** [text.encode('utf-8')] fails on the first run of surrogates; this is
    [str(e)] of its [UnicodeEncodeError]. *)
Definition utf8_encode_error (text : str) : option str :=
  match first_surrogates 0 text with
  | None => None
  | Some (start, c, len) =>
      Some (if len =? 1
            then lit "'utf-8' codec can't encode character '" ++ escape_u4 c
                 ++ lit "' in position " ++ str_of_Z start
                 ++ lit ": surrogates not allowed"
            else lit "'utf-8' codec can't encode characters in position "
                 ++ str_of_Z start ++ lit "-" ++ str_of_Z (start + len - 1)
                 ++ lit ": surrogates not allowed")
  end.

(** [MIMEText(text, subtype)]: the constructor encodes the text, as ASCII
    when it can and as UTF-8 otherwise, and raises what the codec raises. *)
Definition MIMEText_new (text subtype : str) : exn + MIMEText :=
  match utf8_encode_error text with
  | Some t => inl (UnicodeEncodeError t)
  | None => inr (mkMIMEText text subtype)
  end.

(** The outgoing [MIMEMultipart] message: header fields in the order they
    were added, and the attached parts. *)
Record MIMEMultipart := mkMIMEMultipart
  { mime_headers : list (str * option str);
    mime_parts : list MIMEText }.

(** [MIMEMultipart()]: the constructor itself installs the content type and
    the MIME version. *)
Definition MIMEMultipart_new : MIMEMultipart :=
  {| mime_headers := [(lit "Content-Type", Some (lit "multipart/mixed"));
                      (lit "MIME-Version", Some (lit "1.0"))];
     mime_parts := [] |}.

(** [msg[name] = value] appends a field, it never replaces one; the value is
    stored as it is given. *)
Definition setitem (msg : MIMEMultipart) (name : str) (value : option str)
  : MIMEMultipart :=
  {| mime_headers := mime_headers msg ++ [(name, value)];
     mime_parts := mime_parts msg |}.

(** [msg.attach(part)] *)
Definition attach (msg : MIMEMultipart) (part : MIMEText) : MIMEMultipart :=
  {| mime_headers := mime_headers msg;
     mime_parts := mime_parts msg ++ [part] |}.

(** ** Programs over the mail libraries *)

(** The calls the module makes into [smtplib], [imaplib] and [datetime].
    [SMTP_sendmail] keeps the message object whose [as_string()] is sent. *)
Inductive call : Type -> Type :=
| SMTP_connect (server : option str) (port : Z) : call unit
| SMTP_starttls : call unit
| SMTP_login (user password : option str) : call unit
| SMTP_sendmail (from_addr : option str) (to_addrs : list str)
                (msg : MIMEMultipart) : call unit
| SMTP_quit : call unit
| IMAP4_SSL_connect (server : option str) (port : Z) : call unit
| IMAP_login (user password : option str) : call unit
| IMAP_select (folder : str) : call unit
| IMAP_search (criteria : str) : call (str * list (option bytes))
| IMAP_fetch (message_set : bytes) (message_parts : str)
  : call (str * list fetch_item)
| IMAP_logout : call unit
| Now_isoformat : call str
| Now_strftime (format : str) : call str.

(** A call returns or raises. *)
Inductive answer (X : Type) : Type :=
| Returned (x : X)
| Raised (e : exn).
Arguments Returned {X} x.
Arguments Raised {X} e.

(** A program returns, raises, or makes a call and goes on with its
    answer. *)
Inductive Prog (A : Type) : Type :=
| Ret (a : A)
| Raise (e : exn)
| Vis (X : Type) (c : call X) (k : answer X -> Prog A).
Arguments Ret {A} a.
Arguments Raise {A} e.
Arguments Vis {A X} c k.

Fixpoint bind (A B : Type) (m : Prog A) (f : A -> Prog B) : Prog B :=
  match m with
  | Ret a => f a
  | Raise e => Raise e
  | Vis c k => Vis c (fun r => bind (k r) f)
  end.

(** A library call: its exception, if any, is raised in the program. *)
Definition perform (X : Type) (c : call X) : Prog X :=
  Vis c (fun r => match r with
                  | Returned x => Ret x
                  | Raised e => Raise e
                  end).

(** [try: m  except Exception as e: h e] *)
Fixpoint try_except (A : Type) (m : Prog A) (h : exn -> Prog A) : Prog A :=
  match m with
  | Ret a => Ret a
  | Raise e => h e
  | Vis c k => Vis c (fun r => try_except (k r) h)
  end.

(** A pure step that may raise. *)
Definition lift (A : Type) (r : exn + A) : Prog A :=
  match r with
  | inl e => Raise e
  | inr a => Ret a
  end.

Declare Scope prog_scope.
Delimit Scope prog_scope with prog.
Notation "x <- m ;; k" := (bind m (fun x => k))
  (at level 100, m at next level, right associativity) : prog_scope.
Notation "' p <- m ;; k" := (bind m (fun p => k))
  (at level 100, p pattern, m at next level, right associativity) : prog_scope.
Notation "m ;; k" := (bind m (fun _ => k))
  (at level 100, right associativity) : prog_scope.

(** An event of a run: a call and its answer. *)
Inductive event : Type :=
| Ev (X : Type) (c : call X) (r : answer X).
Arguments Ev {X} c r.

(** The world outside: it answers a call knowing what happened before. *)
Definition world := forall X : Type, list event -> call X -> answer X.

Inductive outcome (A : Type) : Type :=
| Done (a : A)
| Failed (e : exn).
Arguments Done {A} a.
Arguments Failed {A} e.

(** Running a program in a world, after the events [past]; the result comes
    with all events up to the end, oldest first. *)
Fixpoint run (A : Type) (w : world) (past : list event) (m : Prog A)
  : outcome A * list event :=
  match m with
  | Ret a => (Done a, past)
  | Raise e => (Failed e, past)
  | Vis c k => let r := w _ past c in run w (past ++ [Ev c r]) (k r)
  end.

(** ** What the module takes from the interpreter and the [email] package

    [str.lower], [int] on a string (the integer, or [str(e)] of the
    [ValueError] it raises), the message parser, and the exception that
    [as_string()] raises for an outgoing message when it raises one.  The
    text [as_string()] gives otherwise is not a function of the message, the
    boundary of its parts being drawn at random: it stays with the message
    in [SMTP_sendmail]. *)
Record Builtins := mkBuiltins
  { str_lower : str -> str;
    int_of_str : str -> str + Z;
    message_from_bytes : bytes -> Message;
    as_string_error : MIMEMultipart -> option exn }.

(** [os.environ], after [load_dotenv()]. *)
Definition environ := str -> option str.

Definition nl : str := [10%N].

(** ** The email tools *)

Section EmailTools.

Context (py : Builtins) (env : environ).

Local Open Scope prog_scope.

(** [os.getenv(name)] *)
Definition getenv (name : str) : option str := env name.

(** [int(os.getenv(name, default))] for an integer [default] *)
Definition getenv_int (name : str) (default : Z) : exn + Z :=
  match getenv name with
  | None => inr default
  | Some s =>
      match int_of_str py s with
      | inr z => inr z
      | inl text => inl (ValueError text)
      end
  end.

(** One entry of [smtp_configs] or [imap_configs]. *)
Record server_config := mkServer { server : option str; port : Z }.

Record EmailConfig := mkEmailConfig
  { provider : str;
    email_address : option str;
    email_password : option str;
    smtp_configs : list (str * server_config);
    imap_configs : list (str * server_config) }.

(** [EmailConfig.__init__] *)
Definition EmailConfig_init (provider : str) : exn + EmailConfig :=
  let provider := str_lower py provider in
  let email_address := getenv (lit "EMAIL_ADDRESS") in
  let email_password := getenv (lit "EMAIL_PASSWORD") in
  let smtp_server := getenv (lit "SMTP_SERVER") in
  match getenv_int (lit "SMTP_PORT") 587 with
  | inl e => inl e
  | inr smtp_port =>
      let imap_server := getenv (lit "IMAP_SERVER") in
      match getenv_int (lit "IMAP_PORT") 993 with
      | inl e => inl e
      | inr imap_port =>
          inr {| provider := provider;
                 email_address := email_address;
                 email_password := email_password;
                 smtp_configs :=
                   [(lit "gmail", mkServer (Some (lit "smtp.gmail.com")) 587);
                    (lit "outlook",
                      mkServer (Some (lit "smtp-mail.outlook.com")) 587);
                    (lit "yahoo",
                      mkServer (Some (lit "smtp.mail.yahoo.com")) 587);
                    (lit "custom", mkServer smtp_server smtp_port)];
                 imap_configs :=
                   [(lit "gmail", mkServer (Some (lit "imap.gmail.com")) 993);
                    (lit "outlook",
                      mkServer (Some (lit "outlook.office365.com")) 993);
                    (lit "yahoo",
                      mkServer (Some (lit "imap.mail.yahoo.com")) 993);
                    (lit "custom", mkServer imap_server imap_port)] |}
      end
  end.

(** [d.get(k)] on a dictionary written as its items *)
Fixpoint dict_get (V : Type) (d : list (str * V)) (k : str) : option V :=
  match d with
  | [] => None
  | (k', v) :: r => if str_eqb k' k then Some v else dict_get r k
  end.

(** [d.get(k, d["gmail"])]: the default is evaluated first, and a missing
    ["gmail"] entry is a [KeyError]. *)
Definition get_or_gmail (d : list (str * server_config)) (k : str)
  : exn + server_config :=
  match dict_get d (lit "gmail") with
  | None => inl (KeyError (lit "'gmail'"))
  | Some dflt =>
      match dict_get d k with
      | Some c => inr c
      | None => inr dflt
      end
  end.

Definition get_smtp_config (self : EmailConfig) : exn + server_config :=
  get_or_gmail (smtp_configs self) (provider self).

Definition get_imap_config (self : EmailConfig) : exn + server_config :=
  get_or_gmail (imap_configs self) (provider self).

Definition validate_credentials (self : EmailConfig) : bool :=
  truthy (email_address self) && truthy (email_password self).

(** *** Sending *)

(** The dictionary [_send_email_helper] returns; ["timestamp"] is only
    there on success. *)
Record send_result := mkSendResult
  { send_success : bool;
    send_message : str;
    send_timestamp : option str }.

(** The message as composed before the session is opened; building the
    text part is the one step of it that can raise. *)
Definition compose (from_addr : option str) (to_email subject body : str)
           (cc_email : option str) (is_html : bool) : exn + MIMEMultipart :=
  let msg := MIMEMultipart_new in
  let msg := setitem msg (lit "From") from_addr in
  let msg := setitem msg (lit "To") (Some to_email) in
  let msg := setitem msg (lit "Subject") (Some subject) in
  let msg := if truthy cc_email then setitem msg (lit "Cc") cc_email
             else msg in
  if is_html then
    match MIMEText_new body (lit "html") with
    | inl e => inl e
    | inr part => inr (attach msg part)
    end
  else
    match MIMEText_new body (lit "plain") with
    | inl e => inl e
    | inr part => inr (attach msg part)
    end.

(** [msg.as_string()], for what it raises. *)
Definition as_string (msg : MIMEMultipart) : exn + unit :=
  match as_string_error py msg with
  | Some e => inl e
  | None => inr tt
  end.

(** [x.split(',')] where [x] passed the truth test, nothing otherwise. *)
Definition split_if_given (x : option str) : list str :=
  match x with
  | Some (c :: s) => split_on comma (c :: s)
  | _ => []
  end.

(** The recipient list handed to [sendmail]. *)
Definition recipient_list (to_email : str) (cc_email bcc_email : option str)
  : list str :=
  let recipients := [to_email] in
  let recipients := recipients ++ split_if_given cc_email in
  recipients ++ split_if_given bcc_email.

Definition not_configured_send : send_result :=
  mkSendResult false
    (lit "Email credentials not configured. Check EMAIL_ADDRESS and EMAIL_PASSWORD environment variables.")
    None.

(** The [try] block of [_send_email_helper]. *)
Definition send_body (to_email subject body : str)
           (cc_email bcc_email : option str) (is_html : bool)
           (provider : str) : Prog send_result :=
  config <- lift (EmailConfig_init provider) ;;
  if negb (validate_credentials config) then Ret not_configured_send
  else
    msg <- lift (compose (email_address config) to_email subject body
                         cc_email is_html) ;;
    smtp_config <- lift (get_smtp_config config) ;;
    perform (SMTP_connect (server smtp_config) (port smtp_config)) ;;
    perform SMTP_starttls ;;
    perform (SMTP_login (email_address config) (email_password config)) ;;
    let recipients := recipient_list to_email cc_email bcc_email in
    lift (as_string msg) ;;
    perform (SMTP_sendmail (email_address config) recipients msg) ;;
    perform SMTP_quit ;;
    timestamp <- perform Now_isoformat ;;
    Ret (mkSendResult true
           (lit "Email sent successfully to " ++ to_email)
           (Some timestamp)).

(** The three [except] clauses of [_send_email_helper], in order. *)
Definition send_handlers (e : exn) : Prog send_result :=
  if is_SMTPAuthenticationError e then
    Ret (mkSendResult false
           (lit "Authentication failed. Check your email credentials or use app-specific password.")
           None)
  else if is_SMTPException e then
    Ret (mkSendResult false (lit "SMTP error: " ++ exn_text e) None)
  else
    Ret (mkSendResult false (lit "Unexpected error: " ++ exn_text e) None).

Definition _send_email_helper (to_email subject body : str)
           (cc_email bcc_email : option str) (is_html : bool)
           (provider : str) : Prog send_result :=
  try_except
    (send_body to_email subject body cc_email bcc_email is_html provider)
    send_handlers.

(** *** Reading *)

(** One summary of the ["emails"] list. *)
Record email_info := mkEmailInfo
  { info_id : str;
    info_subject : str;
    info_from : str;
    info_date : str;
    info_to : option str;
    info_body_preview : str }.

(** The dictionary [_read_emails_helper] returns; ["count"] is only there
    on success. *)
Record read_result := mkReadResult
  { read_success : bool;
    read_message : str;
    read_count : option Z;
    read_emails : list email_info }.

(** [message[name]]: the first field of that name, names compared in
    lower case; [None] when there is none. *)
Definition getitem (m : Message) (name : str) : option str :=
  match find (fun kv => str_eqb (str_lower py (fst kv)) (str_lower py name))
             (headers m) with
  | Some kv => Some (snd kv)
  | None => None
  end.

Definition is_multipart (m : Message) : bool :=
  match subparts m with Some _ => true | None => false end.

(** [m.walk()]: the message, then its parts, depth first. *)
Fixpoint walk (m : Message) : list Message :=
  m :: match subparts m with
       | Some ps => flat_map walk ps
       | None => []
       end.

(** [m.get_payload(decode=True)]: [None] for a multipart message. *)
Definition get_payload_decoded (m : Message) : option bytes :=
  if is_multipart m then None else decoded_payload m.

(** [p.decode('utf-8', errors='ignore')] on what [get_payload] gave. *)
Definition decode_ignore (p : option bytes) : exn + str :=
  match p with
  | None =>
      inl (AttributeError (lit "'NoneType' object has no attribute 'decode'"))
  | Some b =>
      match Utf8.decode Utf8.Ignore b with
      | inr s => inr s
      | inl e => inl (UnicodeDecodeError e)
      end
  end.

(** The body of a fetched message: the first [text/plain] part of a
    multipart message, the payload otherwise. *)
Definition extract_body (m : Message) : exn + str :=
  if is_multipart m then
    match find (fun part => str_eqb (content_type part) (lit "text/plain"))
               (walk m) with
    | Some part => decode_ignore (get_payload_decoded part)
    | None => inr []
    end
  else decode_ignore (get_payload_decoded m).

(** [body[:200] + "..." if len(body) > 200 else body] *)
Definition body_preview (body : str) : str :=
  if (200 <? Z.of_nat (List.length body)) then slice_to body 200 ++ lit "..."
  else body.

(** [message_data[0][1]] *)
Definition first_literal (message_data : list fetch_item) : exn + bytes :=
  match message_data with
  | [] => inl (IndexError (lit "list index out of range"))
  | FetchPair _ literal :: _ => inr literal
  | FetchBytes b :: _ =>
      match b with
      | _ :: _ :: _ =>
          inl (AttributeError (lit "'int' object has no attribute 'decode'"))
      | _ => inl (IndexError (lit "index out of range"))
      end
  | FetchNone :: _ =>
      inl (TypeError (lit "'NoneType' object is not subscriptable"))
  end.

(** [email_id.decode()] *)
Definition decode_strict (b : bytes) : exn + str :=
  match Utf8.decode Utf8.Strict b with
  | inr s => inr s
  | inl e => inl (UnicodeDecodeError e)
  end.

(** The summary built for one fetched message, in the order the code
    evaluates it. *)
Definition summarize (config : EmailConfig) (email_id : bytes)
           (message_data : list fetch_item) : exn + email_info :=
  match first_literal message_data with
  | inl e => inl e
  | inr raw =>
      let email_message := message_from_bytes py raw in
      match decode_strict email_id with
      | inl e => inl e
      | inr id =>
          let subject :=
            or_default (getitem email_message (lit "Subject"))
                       (lit "No Subject") in
          let from :=
            or_default (getitem email_message (lit "From"))
                       (lit "Unknown Sender") in
          let date :=
            or_default (getitem email_message (lit "Date"))
                       (lit "Unknown Date") in
          let to := if truthy (getitem email_message (lit "To"))
                    then getitem email_message (lit "To")
                    else email_address config in
          match extract_body email_message with
          | inl e => inl e
          | inr body =>
              inr (mkEmailInfo id subject from date to (body_preview body))
          end
      end
  end.

(** The [for] loop over the identifiers, [emails] being the list built so
    far: a fetch that does not answer ['OK'] adds nothing. *)
Fixpoint fetch_loop (config : EmailConfig) (ids : list bytes)
         (emails : list email_info) : Prog (list email_info) :=
  match ids with
  | [] => Ret emails
  | email_id :: rest =>
      ' (result, message_data) <-
          perform (IMAP_fetch email_id (lit "(RFC822)")) ;;
      if str_eqb result (lit "OK") then
        email_info <- lift (summarize config email_id message_data) ;;
        fetch_loop config rest (emails ++ [email_info])
      else fetch_loop config rest emails
  end.

(** [message_ids[0].split()] *)
Definition first_split (message_ids : list (option bytes))
  : exn + list bytes :=
  match message_ids with
  | [] => inl (IndexError (lit "list index out of range"))
  | None :: _ =>
      inl (AttributeError (lit "'NoneType' object has no attribute 'split'"))
  | Some b :: _ => inr (split_ws b)
  end.

Definition not_configured_read : read_result :=
  mkReadResult false (lit "Email credentials not configured.") None [].

(** The [try] block of [_read_emails_helper]. *)
Definition read_body (folder : str) (limit : Z) (unread_only : bool)
           (provider : str) : Prog read_result :=
  config <- lift (EmailConfig_init provider) ;;
  if negb (validate_credentials config) then Ret not_configured_read
  else
    imap_config <- lift (get_imap_config config) ;;
    perform (IMAP4_SSL_connect (server imap_config) (port imap_config)) ;;
    perform (IMAP_login (email_address config) (email_password config)) ;;
    perform (IMAP_select folder) ;;
    let search_criteria := if unread_only then lit "UNSEEN" else lit "ALL" in
    ' (result, message_ids) <- perform (IMAP_search search_criteria) ;;
    if negb (str_eqb result (lit "OK")) then
      Ret (mkReadResult false (lit "Failed to search emails") None [])
    else
      email_ids <- lift (first_split message_ids) ;;
      let email_ids := slice_from email_ids (- limit) in
      emails <- fetch_loop config (rev email_ids) [] ;;
      perform IMAP_logout ;;
      Ret (mkReadResult true
             (lit "Retrieved " ++ str_of_Z (Z.of_nat (List.length emails))
              ++ lit " emails from " ++ folder)
             (Some (Z.of_nat (List.length emails)))
             emails).

(** The two [except] clauses of [_read_emails_helper]. *)
Definition read_handlers (e : exn) : Prog read_result :=
  if is_IMAP4_error e then
    Ret (mkReadResult false (lit "IMAP error: " ++ exn_text e) None [])
  else
    Ret (mkReadResult false (lit "Unexpected error: " ++ exn_text e) None []).

Definition _read_emails_helper (folder : str) (limit : Z)
           (unread_only : bool) (provider : str) : Prog read_result :=
  try_except (read_body folder limit unread_only provider) read_handlers.

(** *** Testing the connection *)

(** The dictionary [_test_email_connection_helper] returns; the last three
    keys are only there on success. *)
Record test_result := mkTestResult
  { test_success : bool;
    test_message : str;
    test_provider : str;
    test_email : option (option str);
    test_smtp_server : option str;
    test_imap_server : option str }.

Definition endpoint (c : server_config) : str :=
  str_of_opt (server c) ++ lit ":" ++ str_of_Z (port c).

Definition not_configured_test (provider : str) : test_result :=
  mkTestResult false (lit "Email credentials not configured") provider
               None None None.

(** The [try] block of [_test_email_connection_helper]. *)
Definition test_body (provider : str) : Prog test_result :=
  config <- lift (EmailConfig_init provider) ;;
  if negb (validate_credentials config) then
    Ret (not_configured_test provider)
  else
    smtp_config <- lift (get_smtp_config config) ;;
    perform (SMTP_connect (server smtp_config) (port smtp_config)) ;;
    perform SMTP_starttls ;;
    perform (SMTP_login (email_address config) (email_password config)) ;;
    perform SMTP_quit ;;
    imap_config <- lift (get_imap_config config) ;;
    perform (IMAP4_SSL_connect (server imap_config) (port imap_config)) ;;
    perform (IMAP_login (email_address config) (email_password config)) ;;
    perform IMAP_logout ;;
    Ret (mkTestResult true (lit "Email connection successful") provider
           (Some (email_address config))
           (Some (endpoint smtp_config))
           (Some (endpoint imap_config))).

Definition test_handlers (provider : str) (e : exn) : Prog test_result :=
  Ret (mkTestResult false (lit "Connection failed: " ++ exn_text e) provider
         None None None).

Definition _test_email_connection_helper (provider : str)
  : Prog test_result :=
  try_except (test_body provider) (test_handlers provider).

(** *** The tools exposed to the agent

    The literals are those of the source file, character for character;
    the decorations in front of them are written as their code points. *)

Definition mark_ok : str := [226; 339; 8230]%N.
Definition mark_fail : str := [226; 338]%N.
Definition mark_mail : str := [287; 376; 8220; 167]%N.
Definition mark_clock : str := [226; 176]%N.
Definition mark_subject : str := [287; 376; 8220]%N.
Definition mark_date : str := [287; 376; 8220; 8230]%N.
Definition mark_preview : str := [287; 376; 8217; 172]%N.
Definition mark_inbox : str := [287; 376; 8220; 172]%N.
Definition mark_empty : str := [287; 376; 8220; 173]%N.
Definition mark_provider : str := [287; 376; 338]%N.
Definition mark_smtp : str := [287; 376; 8220; 164]%N.
Definition mark_imap : str := [287; 376; 8220; 165]%N.
Definition mark_bell : str := [287; 376; 8221; 8221]%N.

(** [d[key]] for a key that is only there on success. *)
Definition key (A : Type) (name : string) (o : option A) : exn + A :=
  match o with
  | Some a => inr a
  | None => inl (KeyError (lit "'" ++ lit name ++ lit "'"))
  end.

Definition send_email (to_email subject body : str) (cc_email : option str)
  : Prog str :=
  try_except
    (result <- _send_email_helper to_email subject body cc_email None false
                                  (lit "gmail") ;;
     if send_success result then
       timestamp <- lift (key "timestamp" (send_timestamp result)) ;;
       Ret (mark_ok ++ lit " Email sent successfully to " ++ to_email ++ nl
            ++ mark_mail ++ lit " Subject: " ++ subject ++ nl
            ++ mark_clock ++ lit " Sent at: " ++ timestamp)
     else
       Ret (mark_fail ++ lit " Failed to send email: "
            ++ send_message result))
    (fun e => Ret (mark_fail ++ lit " Error sending email: " ++ exn_text e)).

(** [min(max(1, limit), 20)] *)
Definition email_limit (limit : Z) : Z := Z.min (Z.max 1 limit) 20.

(** The text of entry number [i] of the list. *)
Definition email_summary (i : Z) (email_info : email_info) : str :=
  str_of_Z i ++ lit ". " ++ mark_mail ++ lit " From: "
    ++ info_from email_info ++ nl
  ++ lit "   " ++ mark_subject ++ lit " Subject: "
    ++ info_subject email_info ++ nl
  ++ lit "   " ++ mark_date ++ lit " Date: " ++ info_date email_info ++ nl
  ++ lit "   " ++ mark_preview ++ lit " Preview: "
    ++ info_body_preview email_info ++ nl.

(** The loop over [enumerate(emails, i)]. *)
Fixpoint email_list (i : Z) (emails : list email_info) : list str :=
  match emails with
  | [] => []
  | email_info :: rest => email_summary i email_info :: email_list (i + 1) rest
  end.

Definition read_recent_emails (limit : Z) (unread_only : str) : Prog str :=
  try_except
    (let unread_filter := str_eqb (str_lower py unread_only) (lit "true") in
     let email_limit := email_limit limit in
     result <- _read_emails_helper (lit "INBOX") email_limit unread_filter
                                   (lit "gmail") ;;
     if read_success result then
       count <- lift (key "count" (read_count result)) ;;
       if 0 <? count then
         let email_list := email_list 1 (read_emails result) in
         let filter_text :=
           if unread_filter then lit " (unread only)" else [] in
         Ret (mark_inbox ++ lit " Recent Emails" ++ filter_text ++ lit ":"
              ++ nl ++ nl ++ join nl email_list)
       else
         let filter_text := if unread_filter then lit "unread " else [] in
         Ret (mark_empty ++ lit " No " ++ filter_text
              ++ lit "emails found in inbox")
     else
       Ret (mark_fail ++ lit " Failed to read emails: "
            ++ read_message result))
    (fun e => Ret (mark_fail ++ lit " Error reading emails: " ++ exn_text e)).

Definition test_email_connection : Prog str :=
  try_except
    (result <- _test_email_connection_helper (lit "gmail") ;;
     if test_success result then
       email <- lift (key "email" (test_email result)) ;;
       smtp_server <- lift (key "smtp_server" (test_smtp_server result)) ;;
       imap_server <- lift (key "imap_server" (test_imap_server result)) ;;
       Ret (mark_ok ++ lit " Email Connection Successful!" ++ nl
            ++ mark_mail ++ lit " Email: " ++ str_of_opt email ++ nl
            ++ mark_provider ++ lit " Provider: " ++ test_provider result
            ++ nl
            ++ mark_smtp ++ lit " SMTP: " ++ smtp_server ++ nl
            ++ mark_imap ++ lit " IMAP: " ++ imap_server)
     else
       Ret (mark_fail ++ lit " Email Connection Failed: "
            ++ test_message result))
    (fun e => Ret (mark_fail ++ lit " Connection test error: "
                   ++ exn_text e)).

(** The text of the notification before [strip()]. *)
Definition notification_body (timestamp message : str) : str :=
  nl ++ mark_bell ++ lit " Notification from WatsonX Agent" ++ nl
  ++ nl
  ++ mark_date ++ lit " Time: " ++ timestamp ++ nl
  ++ mark_preview ++ lit " Message: " ++ message ++ nl
  ++ nl
  ++ lit "---" ++ nl
  ++ lit "This is an automated notification sent by WatsonX Orchestrate Agent."
  ++ nl
  ++ lit "        ".

Definition send_quick_notification (recipient message : str) : Prog str :=
  try_except
    (timestamp <- perform (Now_strftime (lit "%Y-%m-%d %H:%M:%S")) ;;
     let subject := lit "Notification - " ++ timestamp in
     let body := notification_body timestamp message in
     result <- _send_email_helper recipient subject (strip body) None None
                                  false (lit "gmail") ;;
     if send_success result then
       Ret (mark_bell ++ lit " Notification sent successfully to "
            ++ recipient ++ nl
            ++ mark_preview ++ lit " Message: " ++ message)
     else
       Ret (mark_fail ++ lit " Failed to send notification: "
            ++ send_message result))
    (fun e => Ret (mark_fail ++ lit " Error sending notification: "
                   ++ exn_text e)).

End EmailTools.

(** ** Observing a run *)

(** Sessions: a connection that was made, and a call that ends one. *)
Definition opens_session (e : event) : bool :=
  match e with
  | Ev c (Returned _) =>
      match c with
      | SMTP_connect _ _ | IMAP4_SSL_connect _ _ => true
      | _ => false
      end
  | Ev _ (Raised _) => false
  end.

Definition closes_session (e : event) : bool :=
  match e with
  | Ev c _ =>
      match c with
      | SMTP_quit | IMAP_logout => true
      | _ => false
      end
  end.

(** What was handed to [sendmail]. *)
Definition transmission (e : event)
  : option (option str * list str * MIMEMultipart) :=
  match e with
  | Ev c _ =>
      match c with
      | SMTP_sendmail f t m => Some (f, t, m)
      | _ => None
      end
  end.

(** The message identifier of a [fetch], and whether it answered ['OK']. *)
Definition fetch_of (e : event) : option (bytes * bool) :=
  match e with
  | Ev c r =>
      match c in call X return answer X -> option (bytes * bool) with
      | IMAP_fetch i _ =>
          fun r => match r with
                   | Returned (result, _) => Some (i, str_eqb result (lit "OK"))
                   | Raised _ => Some (i, false)
                   end
      | _ => fun _ => None
      end r
  end.

(** The answer of a [search] that returned. *)
Definition search_of (e : event) : option (str * list (option bytes)) :=
  match e with
  | Ev c r =>
      match c in call X return answer X -> option (str * list (option bytes))
      with
      | IMAP_search _ =>
          fun r => match r with
                   | Returned a => Some a
                   | Raised _ => None
                   end
      | _ => fun _ => None
      end r
  end.

Fixpoint collect (A : Type) (f : event -> option A) (tr : list event)
  : list A :=
  match tr with
  | [] => []
  | e :: r => match f e with
              | Some a => a :: collect f r
              | None => collect f r
              end
  end.

Definition transmissions (tr : list event) := collect transmission tr.
Definition fetches (tr : list event) : list bytes :=
  map fst (collect fetch_of tr).
Definition fetched_ok (tr : list event) : list bytes :=
  map fst (filter snd (collect fetch_of tr)).
Definition searches (tr : list event) := collect search_of tr.

(** Whatever the answers, a program ends by returning a value in [P] or by
    raising an exception in [Q]. *)
Fixpoint post (A : Type) (P : A -> Prop) (Q : exn -> Prop) (m : Prog A)
  : Prop :=
  match m with
  | Ret a => P a
  | Raise e => Q e
  | Vis c k => forall r, post P Q (k r)
  end.

(** A program that cannot end by raising. *)
Definition never_raises (A : Type) (m : Prog A) : Prop :=
  post (fun _ => True) (fun _ => False) m.

(** The text a tool returns: one of the marks of success and the rest, or
    the mark of failure, one of the fixed descriptions, and a diagnostic. *)
Definition outcome_text (ok_marks : list str) (failures : list string)
           (s : str) : Prop :=
  (exists m rest, In m ok_marks /\ s = m ++ rest)
  \/ (exists p diagnostic,
         In p failures /\ s = mark_fail ++ lit p ++ diagnostic).

(** The last [n] elements of a list. *)
Definition lastn (A : Type) (n : nat) (l : list A) : list A :=
  skipn (List.length l - n) l.

(** ** Vocabulary of the statements *)

(** The address or the password is missing or empty. *)
Definition credentials_missing (env : environ) : Prop :=
  truthy (env (lit "EMAIL_ADDRESS")) = false
  \/ truthy (env (lit "EMAIL_PASSWORD")) = false.

(** [SMTP_PORT] and [IMAP_PORT] are unset or hold integers. *)
Definition ports_are_numbers (py : Builtins) (env : environ) : Prop :=
  (exists p, getenv_int py env (lit "SMTP_PORT") 587 = inr p)
  /\ (exists q, getenv_int py env (lit "IMAP_PORT") 993 = inr q).

(** The names with an entry of their own in the two tables. *)
Definition provider_names : list str :=
  [lit "gmail"; lit "outlook"; lit "yahoo"; lit "custom"].

Definition gmail_smtp : server_config :=
  mkServer (Some (lit "smtp.gmail.com")) 587.
Definition gmail_imap : server_config :=
  mkServer (Some (lit "imap.gmail.com")) 993.

(** ** A sample interpreter, environments and worlds

    Used to run the tools on concrete inputs.  The sample builtins agree
    with the interpreter on the ASCII texts they are run on here:
    lower-casing of the letters A to Z, [int] of an optionally signed run of
    decimal digits and its error for a short text without quotes or
    escapes, a parser that takes a whole input without header lines as a
    text/plain body, and [as_string()] of a message whose fields are short
    ASCII texts, which raises for a field with a line break followed by a
    word and a colon. *)

Module Sample.

Definition ascii_lower (s : str) : str :=
  map (fun c => if (N.leb 65 c && N.leb c 90)%bool then (c + 32)%N else c) s.

Fixpoint digits (acc : Z) (s : str) : option Z :=
  match s with
  | [] => Some acc
  | c :: r =>
      if (N.leb 48 c && N.leb c 57)%bool
      then digits (10 * acc + Z.of_N (c - 48)) r
      else None
  end.

Definition decimal_int (s : str) : option Z :=
  match s with
  | [] => None
  | 45%N :: (_ :: _) as r => option_map Z.opp (digits 0 r)
  | 43%N :: (_ :: _) as r => digits 0 r
  | 45%N :: [] | 43%N :: [] => None
  | _ => digits 0 s
  end.

Definition quote (s : str) : str := lit "'" ++ s ++ lit "'".

Definition int_of_decimal (s : str) : str + Z :=
  match decimal_int s with
  | Some z => inr z
  | None => inl (lit "invalid literal for int() with base 10: " ++ quote s)
  end.

Definition body_only (raw : bytes) : Message :=
  mkMessage [] (lit "text/plain") (Some raw) None.

(** A line break followed by characters other than blank and tab and then a
    colon, as the pattern of [email.header] for an embedded header has
    it. *)
Fixpoint word_then_colon (started : bool) (s : str) : bool :=
  match s with
  | [] => false
  | c :: r =>
      if (N.eqb c 32 || N.eqb c 9)%bool then false
      else if (started && N.eqb c 58)%bool then true
      else word_then_colon true r
  end.

Fixpoint embedded_header (s : str) : bool :=
  match s with
  | [] => false
  | c :: r =>
      (N.eqb c 10 && word_then_colon false r)%bool || embedded_header r
  end.

(** [repr] of a text whose only character to escape is the line break. *)
Definition repr_lines (s : str) : str :=
  lit "'" ++ flat_map (fun c => if N.eqb c 10 then lit "\n" else [c]) s
  ++ lit "'".

Definition HeaderParseError (t : str) := mkExn OtherException t.

(** [as_string()] refuses a field whose value holds an embedded header. *)
Definition refuse_embedded_header (msg : MIMEMultipart) : option exn :=
  match find (fun kv => embedded_header (or_default (snd kv) []))
             (mime_headers msg) with
  | Some kv =>
      Some (HeaderParseError
              (lit "header value appears to contain an embedded header: "
               ++ repr_lines (or_default (snd kv) [])))
  | None => None
  end.

Definition py0 : Builtins :=
  mkBuiltins ascii_lower int_of_decimal body_only refuse_embedded_header.

(** An environment given by its items. *)
Fixpoint env_of (items : list (string * string)) : environ :=
  fun name =>
    match items with
    | [] => None
    | (k, v) :: r =>
        if str_eqb (lit k) name then Some (lit v) else env_of r name
    end.

Definition env_configured : environ :=
  env_of [("EMAIL_ADDRESS", "me@example.org"); ("EMAIL_PASSWORD", "secret")]%string.

Definition env_empty : environ := env_of [].

(** No credentials, and a port that is not a number. *)
Definition env_bad_port : environ := env_of [("SMTP_PORT", "abc")]%string.

Definition ascii_bytes (s : string) : bytes :=
  map byte_of_ascii (list_ascii_of_string s).

(** A server that accepts everything; the mailbox holds the messages 1 to
    5 and every fetch gives a short message. *)
Definition world_ok : world :=
  fun X _ c =>
    match c in call X return answer X with
    | SMTP_connect _ _ => Returned tt
    | SMTP_starttls => Returned tt
    | SMTP_login _ _ => Returned tt
    | SMTP_sendmail _ _ _ => Returned tt
    | SMTP_quit => Returned tt
    | IMAP4_SSL_connect _ _ => Returned tt
    | IMAP_login _ _ => Returned tt
    | IMAP_select _ => Returned tt
    | IMAP_search _ =>
        Returned (lit "OK", [Some (ascii_bytes "1 2 3 4 5")])
    | IMAP_fetch i _ =>
        Returned (lit "OK",
                  [FetchPair (i ++ ascii_bytes " (RFC822 {5}")
                             (ascii_bytes "hello");
                   FetchBytes (ascii_bytes ")")])
    | IMAP_logout => Returned tt
    | Now_isoformat => Returned (lit "2024-05-01T10:00:00.000000")
    | Now_strftime _ => Returned (lit "2024-05-01 10:00:00")
    end.

(** A server that rejects the login. *)
Definition world_rejects_login : world :=
  fun X past c =>
    match c in call X return answer X with
    | SMTP_login _ _ =>
        Raised (mkExn SMTPAuthenticationError
                      (lit "(535, b'5.7.8 Username and Password not accepted')"))
    | IMAP_login _ _ =>
        Raised (mkExn IMAP4_error
                      (lit "b'[AUTHENTICATIONFAILED] Invalid credentials (Failure)'"))
    | c' => world_ok past c'
    end.

(** A server whose search answers ['NO']. *)
Definition world_search_no : world :=
  fun X past c =>
    match c in call X return answer X with
    | IMAP_search _ => Returned (lit "NO", [None])
    | c' => world_ok past c'
    end.

(** A mailbox in which message 4 is gone: its fetch answers ['OK'] with
    [[None]]. *)
Definition world_message_gone : world :=
  fun X past c =>
    match c in call X return answer X with
    | IMAP_fetch i s =>
        if list_eq_dec Byte.byte_eq_dec i (ascii_bytes "4")
        then Returned (lit "OK", [FetchNone])
        else world_ok past (IMAP_fetch i s)
    | c' => world_ok past c'
    end.

End Sample.

(** ** The order of the calls *)

(** The library entry point an event went through. *)
Inductive kind :=
| SmtpConnect | SmtpStarttls | SmtpLogin | SmtpSendmail | SmtpQuit
| ImapConnect | ImapLogin | ImapSelect | ImapSearch | ImapFetch | ImapLogout
| ClockNow.

Definition kind_of (e : event) : kind :=
  match e with
  | Ev c _ =>
      match c with
      | SMTP_connect _ _ => SmtpConnect
      | SMTP_starttls => SmtpStarttls
      | SMTP_login _ _ => SmtpLogin
      | SMTP_sendmail _ _ _ => SmtpSendmail
      | SMTP_quit => SmtpQuit
      | IMAP4_SSL_connect _ _ => ImapConnect
      | IMAP_login _ _ => ImapLogin
      | IMAP_select _ => ImapSelect
      | IMAP_search _ => ImapSearch
      | IMAP_fetch _ _ => ImapFetch
      | IMAP_logout => ImapLogout
      | Now_isoformat | Now_strftime _ => ClockNow
      end
  end.

(** The call of the event returned. *)
Definition returned (e : event) : bool :=
  match e with
  | Ev _ (Returned _) => true
  | Ev _ (Raised _) => false
  end.

(** The exception of the event, when its call raised. *)
Definition raised (e : event) : option exn :=
  match e with
  | Ev _ (Returned _) => None
  | Ev _ (Raised x) => Some x
  end.

(** Every call but the last one returned. *)
Fixpoint stops_at_first_error (tr : list event) : bool :=
  match tr with
  | [] => true
  | e :: r =>
      match r with
      | [] => true
      | _ :: _ => returned e && stops_at_first_error r
      end
  end.

(** [l] is an initial segment of [script]. *)
Definition prefix_of (A : Type) (l script : list A) : Prop :=
  exists rest, script = l ++ rest.

(** The calls of a send, of a connection test and of a read of [n]
    messages, in the order of the code. *)
Definition send_script : list kind :=
  [SmtpConnect; SmtpStarttls; SmtpLogin; SmtpSendmail; SmtpQuit; ClockNow].

Definition test_script : list kind :=
  [SmtpConnect; SmtpStarttls; SmtpLogin; SmtpQuit;
   ImapConnect; ImapLogin; ImapLogout].

Definition read_script (n : nat) : list kind :=
  [ImapConnect; ImapLogin; ImapSelect; ImapSearch]
  ++ repeat ImapFetch n ++ [ImapLogout].

(** The servers the run connected to or tried to. *)
Definition connection (e : event) : option (kind * option str * Z) :=
  match e with
  | Ev c _ =>
      match c with
      | SMTP_connect s p => Some (SmtpConnect, s, p)
      | IMAP4_SSL_connect s p => Some (ImapConnect, s, p)
      | _ => None
      end
  end.

Definition connections (tr : list event) := collect connection tr.

(** The credentials a login presented. *)
Definition login_of (e : event) : option (option str * option str) :=
  match e with
  | Ev c _ =>
      match c with
      | SMTP_login u p | IMAP_login u p => Some (u, p)
      | _ => None
      end
  end.

Definition logins (tr : list event) := collect login_of tr.

(** The folders selected and the criteria searched. *)
Definition select_of (e : event) : option str :=
  match e with
  | Ev c _ => match c with IMAP_select f => Some f | _ => None end
  end.

Definition criterion_of (e : event) : option str :=
  match e with
  | Ev c _ => match c with IMAP_search s => Some s | _ => None end
  end.

Definition selections (tr : list event) := collect select_of tr.
Definition criteria (tr : list event) := collect criterion_of tr.

(** The last event of a run. *)
Definition last_event (tr : list event) : option event :=
  match rev tr with
  | [] => None
  | e :: _ => Some e
  end.

(** The message a failed send reports for an exception. *)
Definition send_failure_message (e : exn) : str :=
  match exn_class_of e with
  | SMTPAuthenticationError =>
      lit "Authentication failed. Check your email credentials or use app-specific password."
  | SMTPException => lit "SMTP error: " ++ exn_text e
  | _ => lit "Unexpected error: " ++ exn_text e
  end.

(** The world as it answers after the events [past0]. *)
Definition after (w : world) (past0 : list event) : world :=
  fun X past c => w X (past0 ++ past) c.

(** A mailbox like that of [Sample.world_ok] in which the fetch of message
    4 answers ['NO']. *)
Definition world_fetch_refused : world :=
  fun X past c =>
    match c in call X return answer X with
    | IMAP_fetch i s =>
        if list_eq_dec Byte.byte_eq_dec i (Sample.ascii_bytes "4")
        then Returned (lit "NO", [FetchNone])
        else Sample.world_ok past (IMAP_fetch i s)
    | c' => Sample.world_ok past c'
    end.

(** The connections and logins a run may make for a profile and a pair of
    credentials. *)
Definition connects_to (smtp imap : server_config) (tr : list event) : Prop :=
  Forall (fun c => c = (SmtpConnect, server smtp, port smtp)
                   \/ c = (ImapConnect, server imap, port imap))
         (connections tr).

Definition logs_in_as (user password : option str) (tr : list event) : Prop :=
  Forall (fun l => l = (user, password)) (logins tr).

(** [str(e)] of the [ValueError] that [int] raises for the first of
    [SMTP_PORT] and [IMAP_PORT] that is set to something it rejects, in the
    order the constructor reads them. *)
Definition port_error (py : Builtins) (env : environ) : option str :=
  let bad name :=
    match env (lit name) with
    | Some s => match int_of_str py s with
                | inr _ => None
                | inl text => Some text
                end
    | None => None
    end in
  match bad "SMTP_PORT"%string with
  | Some text => Some text
  | None => bad "IMAP_PORT"%string
  end.

(** Credentials, and a custom server that no tool asks for. *)
Definition env_custom_server : environ :=
  Sample.env_of [("EMAIL_ADDRESS", "me@example.org");
                 ("EMAIL_PASSWORD", "secret");
                 ("SMTP_SERVER", "mail.example.org");
                 ("SMTP_PORT", "2525")]%string.

(** Credentials, and an IMAP port that is not a number. *)
Definition env_bad_imap_port : environ :=
  Sample.env_of [("EMAIL_ADDRESS", "me@example.org");
                 ("EMAIL_PASSWORD", "secret");
                 ("IMAP_PORT", "imaps")]%string.

(** The text of a notification as it is sent: the body without the line
    break in front of it and the line break and blanks behind it. *)
Definition notification_text (timestamp message : str) : str :=
  mark_bell ++ lit " Notification from WatsonX Agent" ++ nl
  ++ nl
  ++ mark_date ++ lit " Time: " ++ timestamp ++ nl
  ++ mark_preview ++ lit " Message: " ++ message ++ nl
  ++ nl
  ++ lit "---" ++ nl
  ++ lit "This is an automated notification sent by WatsonX Orchestrate Agent.".

(** ** An exception in the middle of a read *)

(** The fetches that answered ['OK'], with the data they gave. *)
Definition ok_fetch_of (e : event) : option (bytes * list fetch_item) :=
  match e with
  | Ev c r =>
      match c in call X return answer X -> option (bytes * list fetch_item)
      with
      | IMAP_fetch i _ =>
          fun r => match r with
                   | Returned (result, message_data) =>
                       if str_eqb result (lit "OK")
                       then Some (i, message_data) else None
                   | Raised _ => None
                   end
      | _ => fun _ => None
      end r
  end.

Definition ok_fetches (tr : list event) : list (bytes * list fetch_item) :=
  collect ok_fetch_of tr.

(** An exception was raised in the run: by one of its calls, or by the
    summary of a message whose fetch answered ['OK']. *)
Definition read_interrupted (py : Builtins) (tr : list event) : Prop :=
  (exists e, In e tr /\ returned e = false)
  \/ (exists id message_data config e,
         In (id, message_data) (ok_fetches tr)
         /\ summarize py config id message_data = inl e).

(** * Properties *)

Unset Implicit Arguments.

(** ** The model on small inputs *)

Example split_on_keeps_empty_fields :
  split_on comma (lit "a,b,,c") = [lit "a"; lit "b"; lit ""; lit "c"]
  /\ split_on comma (lit "") = [lit ""].
Proof. split; reflexivity. Qed.

Example split_ws_drops_empty_fields :
  split_ws (Sample.ascii_bytes "  1 2   33 ")
  = map Sample.ascii_bytes ["1"; "2"; "33"]%string
  /\ split_ws [] = [].
Proof. split; reflexivity. Qed.

Example slice_from_negative :
  slice_from [1; 2; 3; 4; 5] (- 3) = [3; 4; 5]
  /\ slice_from [1; 2; 3; 4; 5] (- 7) = [1; 2; 3; 4; 5]
  /\ slice_from [1; 2; 3; 4; 5] (- 0) = [1; 2; 3; 4; 5].
Proof. repeat split; reflexivity. Qed.

Example strip_both_ends :
  strip (nl ++ lit "  a b " ++ nl ++ lit "   ") = lit "a b".
Proof. reflexivity. Qed.

Example decode_euro_sign :
  Utf8.decode Utf8.Strict [xe2; x82; xac] = inr [8364%N]
  /\ Utf8.decode Utf8.Ignore [x61; xe2; x82; xff; xe2; x82; xac; xc3]
     = inr [97%N; 8364%N].
Proof. split; reflexivity. Qed.

Example decode_error_text :
  match Utf8.decode Utf8.Strict [x61; xff] with
  | inl e => Utf8.error_text e
  | inr _ => []
  end
  = lit "'utf-8' codec can't decode byte 0xff in position 1: invalid start byte".
Proof. reflexivity. Qed.

Example test_connection_without_credentials :
  run Sample.world_ok [] (test_email_connection Sample.py0 Sample.env_empty)
  = (Done (mark_fail
           ++ lit " Email Connection Failed: Email credentials not configured"),
     []).
Proof. reflexivity. Qed.

Example send_email_rejected_login :
  fst (run Sample.world_rejects_login []
           (send_email Sample.py0 Sample.env_configured (lit "a@example.org")
                       (lit "subject") (lit "body") None))
  = Done (mark_fail
          ++ lit " Failed to send email: Authentication failed. Check your email credentials or use app-specific password.").
Proof. reflexivity. Qed.

(** ** Running programs *)

Lemma run_bind (A B : Type) (w : world) (m : Prog A) (f : A -> Prog B) :
  forall past,
    run w past (bind m f) =
    match run w past m with
    | (Done a, tr) => run w tr (f a)
    | (Failed e, tr) => (Failed e, tr)
    end.
Proof.
  induction m as [a | e | X c k IH]; intros past; simpl; auto.
Qed.

Lemma run_try_except (A : Type) (w : world) (m : Prog A) (h : exn -> Prog A) :
  forall past,
    run w past (try_except m h) =
    match run w past m with
    | (Done a, tr) => (Done a, tr)
    | (Failed e, tr) => run w tr (h e)
    end.
Proof.
  induction m as [a | e | X c k IH]; intros past; simpl; auto.
Qed.

Lemma run_perform (X : Type) (w : world) (c : call X) (past : list event) :
  run w past (perform c) =
  match w _ past c with
  | Returned x => (Done x, past ++ [Ev c (Returned x)])
  | Raised e => (Failed e, past ++ [Ev c (Raised e)])
  end.
Proof.
  simpl. destruct (w X past c); reflexivity.
Qed.

Lemma run_lift (A : Type) (w : world) (r : exn + A) (past : list event) :
  run w past (lift r) =
  match r with
  | inl e => (Failed e, past)
  | inr a => (Done a, past)
  end.
Proof.
  destruct r; reflexivity.
Qed.

(** *** Postconditions *)

Lemma post_run (A : Type) (P : A -> Prop) (Q : exn -> Prop) (w : world)
      (m : Prog A) :
  post P Q m ->
  forall past, exists o tr,
      run w past m = (o, tr)
      /\ match o with Done a => P a | Failed e => Q e end.
Proof.
  induction m as [a | e | X c k IH]; simpl; intros H past.
  - now exists (Done a), past.
  - now exists (Failed e), past.
  - apply IH, H.
Qed.

Lemma post_bind (A B : Type) (R : A -> Prop) (P : B -> Prop)
      (Q : exn -> Prop) (m : Prog A) (f : A -> Prog B) :
  post R Q m -> (forall a, R a -> post P Q (f a)) -> post P Q (bind m f).
Proof.
  intros Hm Hf. induction m as [a | e | X c k IH]; simpl in *; auto.
Qed.

Lemma post_try_except (A : Type) (P : A -> Prop) (E Q : exn -> Prop)
      (m : Prog A) (h : exn -> Prog A) :
  post P E m -> (forall e, E e -> post P Q (h e)) ->
  post P Q (try_except m h).
Proof.
  intros Hm Hh. induction m as [a | e | X c k IH]; simpl in *; auto.
Qed.

(** Any program meets the trivial postcondition. *)
Lemma post_any (A : Type) (m : Prog A) :
  post (fun _ => True) (fun _ => True) m.
Proof.
  induction m as [a | e | X c k IH]; simpl; auto.
Qed.

(** Whatever the body does, a handler that returns makes the whole
    [try] return. *)
Lemma try_except_never_raises (A : Type) (m : Prog A) (h : exn -> Prog A) :
  (forall e, never_raises (h e)) -> never_raises (try_except m h).
Proof.
  intros Hh. apply post_try_except with (E := fun _ => True).
  - apply post_any.
  - intros e _. apply Hh.
Qed.

Lemma never_raises_run (A : Type) (w : world) (m : Prog A) :
  never_raises m ->
  forall past, exists a tr, run w past m = (Done a, tr).
Proof.
  intros H past. destruct (post_run _ _ _ w m H past) as (o & tr & Hr & Ho).
  destruct o as [a | e]; [now exists a, tr | contradiction].
Qed.

Lemma collect_app (A : Type) (f : event -> option A) (l1 l2 : list event) :
  collect f (l1 ++ l2) = collect f l1 ++ collect f l2.
Proof.
  induction l1 as [| e l1 IH]; simpl; auto.
  destruct (f e); simpl; now rewrite IH.
Qed.

Lemma str_eqb_eq (a b : str) : str_eqb a b = true <-> a = b.
Proof.
  revert b. induction a as [| x a IH]; destruct b as [| y b]; simpl;
    try (split; [discriminate | discriminate]); try tauto.
  rewrite andb_true_iff, N.eqb_eq, IH. split.
  - intros [-> ->]; reflexivity.
  - intros H; inversion H; auto.
Qed.

Lemma str_eqb_neq (a b : str) : a <> b -> str_eqb a b = false.
Proof.
  intros H. destruct (str_eqb a b) eqn:E; auto.
  apply str_eqb_eq in E. contradiction.
Qed.

(** ** Provider resolution *)

Lemma EmailConfig_init_provider (py : Builtins) (env : environ) (name : str)
      (config : EmailConfig) :
  EmailConfig_init py env name = inr config ->
  provider config = str_lower py name
  /\ dict_get (smtp_configs config) (lit "gmail") = Some gmail_smtp
  /\ dict_get (imap_configs config) (lit "gmail") = Some gmail_imap
  /\ (~ In (provider config) provider_names ->
      dict_get (smtp_configs config) (provider config) = None
      /\ dict_get (imap_configs config) (provider config) = None).
Proof.
  unfold EmailConfig_init. intros H.
  destruct (getenv_int py env (lit "SMTP_PORT") 587) as [e | sp];
    [discriminate |].
  destruct (getenv_int py env (lit "IMAP_PORT") 993) as [e | ip];
    [discriminate |].
  inversion H; subst; clear H. cbn [provider smtp_configs imap_configs].
  repeat split; try reflexivity.
  - cbn [dict_get].
    repeat (rewrite str_eqb_neq;
            [| intros E; apply H; rewrite <- E; unfold provider_names;
               simpl; tauto]).
    reflexivity.
  - cbn [dict_get].
    repeat (rewrite str_eqb_neq;
            [| intros E; apply H; rewrite <- E; unfold provider_names;
               simpl; tauto]).
    reflexivity.
Qed.

(** C5.  A configuration whose provider name is none of gmail, outlook,
    yahoo and custom resolves to the gmail profile, for SMTP and for IMAP,
    and the two lookups return without an error.  The provider name of a
    configuration is the one its constructor stored, in lower case. *)
Theorem unknown_provider_resolves_to_gmail
        (py : Builtins) (env : environ) (name : str) (config : EmailConfig) :
  EmailConfig_init py env name = inr config ->
  ~ In (provider config) provider_names ->
  get_smtp_config config = inr gmail_smtp
  /\ get_imap_config config = inr gmail_imap.
Proof.
  intros Hc Hn.
  destruct (EmailConfig_init_provider _ _ _ _ Hc) as (_ & Hs & Hi & Hnone).
  destruct (Hnone Hn) as [Ns Ni].
  unfold get_smtp_config, get_imap_config, get_or_gmail.
  now rewrite Hs, Hi, Ns, Ni.
Qed.

(** The constructor lower-cases the name it is given, so a name that
    differs from a key only by case is a known provider. *)
Example mixed_case_provider_is_known :
  match EmailConfig_init Sample.py0 Sample.env_empty (lit "Outlook") with
  | inr config =>
      provider config = lit "outlook"
      /\ get_smtp_config config
         = inr (mkServer (Some (lit "smtp-mail.outlook.com")) 587)
      /\ get_imap_config config
         = inr (mkServer (Some (lit "outlook.office365.com")) 993)
  | inl _ => False
  end.
Proof. repeat split. Qed.

(** ** The limit of [read_recent_emails] *)

Lemma email_limit_range (n : Z) : 1 <= email_limit n <= 20.
Proof.
  unfold email_limit. lia.
Qed.

(** ** The body preview *)

Lemma body_preview_cases (body : str) :
  (List.length body <= 200)%nat /\ body_preview body = body
  \/ (200 < List.length body)%nat
     /\ body_preview body = firstn 200 body ++ lit "...".
Proof.
  unfold body_preview, slice_to.
  destruct (200 <? Z.of_nat (List.length body)) eqn:E.
  - right. apply Z.ltb_lt in E. split; [lia | reflexivity].
  - left. apply Z.ltb_ge in E. split; [lia | reflexivity].
Qed.

(** C6.  The preview of every summary the reader builds is the body of the
    fetched message when that body has at most 200 characters, and its first
    200 characters followed by three dots when it is longer. *)
Theorem body_preview_is_capped_at_200
        (py : Builtins) (config : EmailConfig) (email_id : bytes)
        (message_data : list fetch_item) (info : email_info) :
  summarize py config email_id message_data = inr info ->
  exists raw body,
    first_literal message_data = inr raw
    /\ extract_body (message_from_bytes py raw) = inr body
    /\ ((List.length body <= 200)%nat -> info_body_preview info = body)
    /\ ((200 < List.length body)%nat ->
        info_body_preview info = firstn 200 body ++ lit "..."
        /\ List.length (info_body_preview info) = 203%nat).
Proof.
  unfold summarize. intros H.
  destruct (first_literal message_data) as [e | raw] eqn:Hraw;
    [discriminate |].
  destruct (decode_strict email_id) as [e | id]; [discriminate |].
  destruct (extract_body (message_from_bytes py raw)) as [e | body] eqn:Hbody;
    [discriminate |].
  inversion H; subst; clear H. cbn [info_body_preview].
  exists raw, body.
  destruct (body_preview_cases body) as [[Hl E] | [Hl E]];
    (split; [reflexivity | split; [exact Hbody | split]]); intros Hb;
    try lia; try exact E.
  split; [exact E |].
  rewrite E, length_app, firstn_length_le by lia. reflexivity.
Qed.

(** ** Missing credentials *)

Lemma EmailConfig_init_credentials (py : Builtins) (env : environ) (name : str)
      (config : EmailConfig) :
  EmailConfig_init py env name = inr config ->
  email_address config = env (lit "EMAIL_ADDRESS")
  /\ email_password config = env (lit "EMAIL_PASSWORD").
Proof.
  unfold EmailConfig_init. intros H.
  destruct (getenv_int py env (lit "SMTP_PORT") 587); [discriminate |].
  destruct (getenv_int py env (lit "IMAP_PORT") 993); [discriminate |].
  inversion H; subst. split; reflexivity.
Qed.

(** The constructor only fails on a port that is not a number, and then
    with a [ValueError]. *)
Lemma EmailConfig_init_fails (py : Builtins) (env : environ) (name : str)
      (e : exn) :
  EmailConfig_init py env name = inl e ->
  exn_class_of e = OtherException /\ ~ ports_are_numbers py env.
Proof.
  unfold EmailConfig_init, ports_are_numbers. intros H.
  destruct (getenv_int py env (lit "SMTP_PORT") 587) as [e1 | sp] eqn:E1.
  - inversion H; subst. split.
    + unfold getenv_int in E1. destruct (getenv env _); [| discriminate].
      destruct (int_of_str py s); [| discriminate]. now inversion E1.
    + intros [[p Hp] _]. discriminate.
  - destruct (getenv_int py env (lit "IMAP_PORT") 993) as [e2 | ip] eqn:E2;
      [| discriminate].
    inversion H; subst. split.
    + unfold getenv_int in E2. destruct (getenv env _); [| discriminate].
      destruct (int_of_str py s); [| discriminate]. now inversion E2.
    + intros [_ [q Hq]]. discriminate.
Qed.

Lemma unconfigured_is_invalid (py : Builtins) (env : environ) (name : str)
      (config : EmailConfig) :
  credentials_missing env ->
  EmailConfig_init py env name = inr config ->
  validate_credentials config = false.
Proof.
  intros Hm Hc. apply EmailConfig_init_credentials in Hc as [Ha Hp].
  unfold validate_credentials. rewrite Ha, Hp.
  destruct Hm as [-> | ->]; [reflexivity | apply andb_false_r].
Qed.

Lemma send_unconfigured (py : Builtins) (env : environ)
      (to_email subject body : str) (cc_email bcc_email : option str)
      (is_html : bool) (name : str) :
  credentials_missing env ->
  exists r,
    _send_email_helper py env to_email subject body cc_email bcc_email
                       is_html name = Ret r
    /\ send_success r = false
    /\ (ports_are_numbers py env -> r = not_configured_send).
Proof.
  intros Hm. unfold _send_email_helper, send_body.
  destruct (EmailConfig_init py env name) as [e | config] eqn:E.
  - apply EmailConfig_init_fails in E as [Hc Hp].
    cbn [lift bind try_except]. unfold send_handlers,
      is_SMTPAuthenticationError, is_SMTPException. rewrite Hc.
    eexists. split; [reflexivity |]. split; [reflexivity |].
    intros H; contradiction.
  - cbn [lift bind]. rewrite (unconfigured_is_invalid _ _ _ _ Hm E). cbn.
    eexists. repeat split.
Qed.

Lemma read_unconfigured (py : Builtins) (env : environ)
      (folder : str) (limit : Z) (unread_only : bool) (name : str) :
  credentials_missing env ->
  exists r,
    _read_emails_helper py env folder limit unread_only name = Ret r
    /\ read_success r = false
    /\ read_emails r = []
    /\ (ports_are_numbers py env -> r = not_configured_read).
Proof.
  intros Hm. unfold _read_emails_helper, read_body.
  destruct (EmailConfig_init py env name) as [e | config] eqn:E.
  - apply EmailConfig_init_fails in E as [Hc Hp].
    cbn [lift bind try_except]. unfold read_handlers, is_IMAP4_error.
    rewrite Hc.
    eexists. split; [reflexivity |]. split; [reflexivity |].
    split; [reflexivity |]. intros H; contradiction.
  - cbn [lift bind]. rewrite (unconfigured_is_invalid _ _ _ _ Hm E). cbn.
    eexists. repeat split.
Qed.

Lemma test_unconfigured (py : Builtins) (env : environ) (name : str) :
  credentials_missing env ->
  exists r,
    _test_email_connection_helper py env name = Ret r
    /\ test_success r = false
    /\ (ports_are_numbers py env -> r = not_configured_test name).
Proof.
  intros Hm. unfold _test_email_connection_helper, test_body.
  destruct (EmailConfig_init py env name) as [e | config] eqn:E.
  - apply EmailConfig_init_fails in E as [Hc Hp].
    cbn [lift bind try_except]. unfold test_handlers.
    eexists. split; [reflexivity |]. split; [reflexivity |].
    intros H; contradiction.
  - cbn [lift bind]. rewrite (unconfigured_is_invalid _ _ _ _ Hm E). cbn.
    eexists. repeat split.
Qed.

(** C1, as the code has it.  When the address or the password is missing or
    empty, each of the three operations returns a failure result without
    making a single call: its run leaves the list of events empty in every
    world, so no SMTP or IMAP session is opened.  The result is the
    "not configured" one whenever [SMTP_PORT] and [IMAP_PORT] are unset or
    hold integers. *)
Theorem unconfigured_operations_make_no_call
        (py : Builtins) (env : environ) (w : world) :
  credentials_missing env ->
  (forall to_email subject body cc_email bcc_email is_html name,
      exists r,
        run w [] (_send_email_helper py env to_email subject body cc_email
                                     bcc_email is_html name) = (Done r, [])
        /\ send_success r = false
        /\ (ports_are_numbers py env -> r = not_configured_send))
  /\ (forall folder limit unread_only name,
         exists r,
           run w [] (_read_emails_helper py env folder limit unread_only name)
           = (Done r, [])
           /\ read_success r = false
           /\ read_emails r = []
           /\ (ports_are_numbers py env -> r = not_configured_read))
  /\ (forall name,
         exists r,
           run w [] (_test_email_connection_helper py env name) = (Done r, [])
           /\ test_success r = false
           /\ (ports_are_numbers py env -> r = not_configured_test name)).
Proof.
  intros Hm. repeat split.
  - intros. destruct (send_unconfigured py env to_email subject body cc_email
                        bcc_email is_html name Hm) as (r & -> & H).
    now exists r.
  - intros. destruct (read_unconfigured py env folder limit unread_only name Hm)
      as (r & -> & H).
    now exists r.
  - intros. destruct (test_unconfigured py env name Hm) as (r & -> & H).
    now exists r.
Qed.

(** ** Errors stay inside the operations *)

Lemma post_bind_any (A B : Type) (P : B -> Prop) (m : Prog A)
      (f : A -> Prog B) :
  (forall a, post P (fun _ => True) (f a)) ->
  post P (fun _ => True) (bind m f).
Proof.
  intros Hf. apply post_bind with (R := fun _ => True); auto.
  apply post_any.
Qed.

Ltac outcome_ok :=
  left; eexists _, _; split; [| reflexivity]; simpl; tauto.
Ltac outcome_fail :=
  right; eexists _, _; split; [| reflexivity]; simpl; tauto.

Lemma send_helper_never_raises (py : Builtins) (env : environ)
      (to_email subject body : str) (cc_email bcc_email : option str)
      (is_html : bool) (name : str) :
  never_raises (_send_email_helper py env to_email subject body cc_email
                                   bcc_email is_html name).
Proof.
  apply try_except_never_raises. intros e. unfold send_handlers.
  destruct (is_SMTPAuthenticationError e); [exact I |].
  destruct (is_SMTPException e); exact I.
Qed.

Lemma read_helper_never_raises (py : Builtins) (env : environ)
      (folder : str) (limit : Z) (unread_only : bool) (name : str) :
  never_raises (_read_emails_helper py env folder limit unread_only name).
Proof.
  apply try_except_never_raises. intros e. unfold read_handlers.
  destruct (is_IMAP4_error e); exact I.
Qed.

Lemma test_helper_never_raises (py : Builtins) (env : environ) (name : str) :
  never_raises (_test_email_connection_helper py env name).
Proof.
  apply try_except_never_raises. intros e. exact I.
Qed.

Lemma send_email_post (py : Builtins) (env : environ)
      (to_email subject body : str) (cc_email : option str) :
  post (outcome_text [mark_ok]
          [" Failed to send email: "; " Error sending email: "]%string)
       (fun _ => False)
       (send_email py env to_email subject body cc_email).
Proof.
  unfold send_email. apply post_try_except with (E := fun _ => True).
  - apply post_bind_any. intros result.
    destruct (send_success result).
    + apply post_bind_any. intros timestamp. cbn [post]. outcome_ok.
    + cbn [post]. outcome_fail.
  - intros e _. cbn [post]. outcome_fail.
Qed.

Lemma read_recent_emails_post (py : Builtins) (env : environ)
      (limit : Z) (unread_only : str) :
  post (outcome_text [mark_inbox; mark_empty]
          [" Failed to read emails: "; " Error reading emails: "]%string)
       (fun _ => False)
       (read_recent_emails py env limit unread_only).
Proof.
  unfold read_recent_emails. cbv zeta.
  apply post_try_except with (E := fun _ => True).
  - apply post_bind_any. intros result.
    destruct (read_success result).
    + apply post_bind_any. intros count.
      destruct (0 <? count); cbn [post]; outcome_ok.
    + cbn [post]. outcome_fail.
  - intros e _. cbn [post]. outcome_fail.
Qed.

Lemma test_email_connection_post (py : Builtins) (env : environ) :
  post (outcome_text [mark_ok]
          [" Email Connection Failed: "; " Connection test error: "]%string)
       (fun _ => False)
       (test_email_connection py env).
Proof.
  unfold test_email_connection.
  apply post_try_except with (E := fun _ => True).
  - apply post_bind_any. intros result.
    destruct (test_success result).
    + apply post_bind_any. intros email.
      apply post_bind_any. intros smtp_server.
      apply post_bind_any. intros imap_server.
      cbn [post]. outcome_ok.
    + cbn [post]. outcome_fail.
  - intros e _. cbn [post]. outcome_fail.
Qed.

Lemma send_quick_notification_post (py : Builtins) (env : environ)
      (recipient message : str) :
  post (outcome_text [mark_bell]
          [" Failed to send notification: ";
           " Error sending notification: "]%string)
       (fun _ => False)
       (send_quick_notification py env recipient message).
Proof.
  unfold send_quick_notification. cbv zeta.
  apply post_try_except with (E := fun _ => True).
  - apply post_bind_any. intros timestamp.
    apply post_bind_any. intros result.
    destruct (send_success result); cbn [post];
      [outcome_ok | outcome_fail].
  - intros e _. cbn [post]. outcome_fail.
Qed.

(** A program with a postcondition that no exception meets returns, in
    every world, a value that meets it. *)
Lemma post_returns (A : Type) (P : A -> Prop) (w : world) (m : Prog A) :
  post P (fun _ => False) m ->
  forall past, exists a tr, run w past m = (Done a, tr) /\ P a.
Proof.
  intros H past. destruct (post_run _ _ _ w m H past) as (o & tr & Hr & Ho).
  destruct o as [a | e]; [now exists a, tr | contradiction].
Qed.

(** C9.  In every world, whatever any call answers or raises, each of the
    four tools returns a text and never raises: the text starts with a mark
    of success, or it is the mark of failure followed by one of the two
    fixed descriptions of the tool and a diagnostic.  The three helpers
    below them always return a result as well. *)
Theorem tools_never_raise
        (py : Builtins) (env : environ) (w : world) (past : list event) :
  (forall to_email subject body cc_email,
      exists s tr,
        run w past (send_email py env to_email subject body cc_email)
        = (Done s, tr)
        /\ outcome_text [mark_ok]
             [" Failed to send email: "; " Error sending email: "]%string s)
  /\ (forall limit unread_only,
         exists s tr,
           run w past (read_recent_emails py env limit unread_only)
           = (Done s, tr)
           /\ outcome_text [mark_inbox; mark_empty]
                [" Failed to read emails: "; " Error reading emails: "]%string
                s)
  /\ (exists s tr,
         run w past (test_email_connection py env) = (Done s, tr)
         /\ outcome_text [mark_ok]
              [" Email Connection Failed: "; " Connection test error: "]%string
              s)
  /\ (forall recipient message,
         exists s tr,
           run w past (send_quick_notification py env recipient message)
           = (Done s, tr)
           /\ outcome_text [mark_bell]
                [" Failed to send notification: ";
                 " Error sending notification: "]%string s)
  /\ (forall to_email subject body cc_email bcc_email is_html name,
         exists r tr,
           run w past (_send_email_helper py env to_email subject body
                                          cc_email bcc_email is_html name)
           = (Done r, tr))
  /\ (forall folder limit unread_only name,
         exists r tr,
           run w past (_read_emails_helper py env folder limit unread_only
                                           name)
           = (Done r, tr))
  /\ (forall name,
         exists r tr,
           run w past (_test_email_connection_helper py env name)
           = (Done r, tr)).
Proof.
  repeat split; intros.
  - apply post_returns, send_email_post.
  - apply post_returns, read_recent_emails_post.
  - apply post_returns, test_email_connection_post.
  - apply post_returns, send_quick_notification_post.
  - apply never_raises_run, send_helper_never_raises.
  - apply never_raises_run, read_helper_never_raises.
  - apply never_raises_run, test_helper_never_raises.
Qed.

(** ** The results of a failed read *)

Lemma read_helper_failure_post (py : Builtins) (env : environ)
      (folder : str) (limit : Z) (unread_only : bool) (name : str) :
  post (fun r => read_success r = false ->
                 read_emails r = [] /\ read_count r = None)
       (fun _ => False)
       (_read_emails_helper py env folder limit unread_only name).
Proof.
  unfold _read_emails_helper.
  apply post_try_except with (E := fun _ => True).
  - unfold read_body. apply post_bind_any. intros config.
    destruct (negb (validate_credentials config)).
    { cbn [post]. now split. }
    apply post_bind_any. intros imap_config.
    apply post_bind_any. intros _.
    apply post_bind_any. intros _.
    apply post_bind_any. intros _.
    apply post_bind_any. intros [result message_ids].
    destruct (negb (str_eqb result (lit "OK"))).
    { cbn [post]. now split. }
    apply post_bind_any. intros email_ids.
    apply post_bind_any. intros emails.
    apply post_bind_any. intros _.
    cbn [post read_success]. discriminate.
  - intros e _. unfold read_handlers.
    destruct (is_IMAP4_error e); cbn [post]; now split.
Qed.

(** C8.  The limit [read_recent_emails] hands to the reader is its argument
    clamped to the interval from 1 to 20: 1 below it, 20 above it, the
    argument itself inside it (0 gives 1, 50 gives 20); in every world the
    tool makes exactly the calls of the reader run with the clamped
    limit. *)
Theorem read_limit_is_clamped
        (py : Builtins) (env : environ) (w : world) (n : Z)
        (unread_only : str) :
  email_limit n = (if n <? 1 then 1 else if 20 <? n then 20 else n)
  /\ 1 <= email_limit n <= 20
  /\ email_limit 0 = 1
  /\ email_limit 50 = 20
  /\ snd (run w [] (read_recent_emails py env n unread_only))
     = snd (run w []
              (_read_emails_helper py env (lit "INBOX") (email_limit n)
                 (str_eqb (str_lower py unread_only) (lit "true"))
                 (lit "gmail"))).
Proof.
  split.
  { unfold email_limit. destruct (Z.ltb_spec n 1); [lia |].
    destruct (Z.ltb_spec 20 n); lia. }
  split; [apply email_limit_range |].
  split; [reflexivity |]. split; [reflexivity |].
  unfold read_recent_emails. cbv zeta.
  rewrite run_try_except, run_bind.
  destruct (never_raises_run _ w _
              (read_helper_never_raises py env (lit "INBOX") (email_limit n)
                 (str_eqb (str_lower py unread_only) (lit "true"))
                 (lit "gmail")) [])
    as (r & tr & Hr).
  rewrite Hr. cbn [snd].
  destruct (read_success r); [| reflexivity].
  destruct (read_count r) as [count |]; [| reflexivity].
  cbn [key lift bind]. destruct (0 <? count); reflexivity.
Qed.

(** ** What a send transmits *)

Lemma run_send_handlers (w : world) (past : list event) (e : exn) :
  exists r, run w past (send_handlers e) = (Done r, past)
            /\ send_success r = false.
Proof.
  unfold send_handlers.
  destruct (is_SMTPAuthenticationError e); [eexists; split; reflexivity |].
  destruct (is_SMTPException e); eexists; split; reflexivity.
Qed.

Ltac run_steps H :=
  repeat first
         [ rewrite run_bind in H
         | rewrite run_perform in H
         | rewrite run_lift in H
         | progress cbv beta iota in H ].

Ltac answer H :=
  match type of H with
  | context [?w ?X ?p ?c] =>
      match type of w with
      | world => destruct (w X p c) as [? | ?]; run_steps H
      end
  end.

Lemma send_body_transmits
      (py : Builtins) (env : environ) (w : world)
      (to_email subject body : str) (cc_email bcc_email : option str)
      (is_html : bool) (name : str) (o : outcome send_result)
      (tr : list event) :
  run w [] (send_body py env to_email subject body cc_email bcc_email is_html
                      name) = (o, tr) ->
  (transmissions tr = []
   \/ exists msg,
       compose (env (lit "EMAIL_ADDRESS")) to_email subject body cc_email
               is_html = inr msg
       /\ transmissions tr
          = [(env (lit "EMAIL_ADDRESS"),
              recipient_list to_email cc_email bcc_email, msg)])
  /\ match o with
     | Done r =>
         send_success r = true ->
         exists msg,
           compose (env (lit "EMAIL_ADDRESS")) to_email subject body cc_email
                   is_html = inr msg
           /\ transmissions tr
              = [(env (lit "EMAIL_ADDRESS"),
                  recipient_list to_email cc_email bcc_email, msg)]
     | Failed _ => True
     end.
Proof.
  intros H. unfold send_body in H.
  run_steps H.
  destruct (EmailConfig_init py env name) as [e | config] eqn:E.
  { inversion H; subst. split; [now left | exact I]. }
  apply EmailConfig_init_credentials in E as [Ea Ep].
  run_steps H.
  destruct (negb (validate_credentials config)).
  { inversion H; subst. split; [now left | discriminate]. }
  run_steps H. rewrite Ea in H.
  destruct (compose (env (lit "EMAIL_ADDRESS")) to_email subject body
                    cc_email is_html) as [e | msg] eqn:C.
  { inversion H; subst. split; [now left | exact I]. }
  run_steps H.
  destruct (get_smtp_config config) as [e | smtp_config].
  { inversion H; subst. split; [now left | exact I]. }
  run_steps H.
  answer H; [| inversion H; subst; split; [now left | exact I]].
  answer H; [| inversion H; subst; split; [now left | exact I]].
  answer H; [| inversion H; subst; split; [now left | exact I]].
  destruct (as_string py msg) as [e | u]; run_steps H.
  { inversion H; subst. split; [now left | exact I]. }
  answer H;
    [| inversion H; subst; split; [right; now exists msg | exact I]].
  answer H;
    [| inversion H; subst; split; [right; now exists msg | exact I]].
  answer H; inversion H; subst; split;
    solve [right; now exists msg | exact I | intros _; now exists msg].
Qed.

(** The text part of a message that could be built. *)
Lemma MIMEText_new_part (text subtype : str) (part : MIMEText) :
  MIMEText_new text subtype = inr part -> part = mkMIMEText text subtype.
Proof.
  unfold MIMEText_new. destruct (utf8_encode_error text); [discriminate |].
  now inversion 1.
Qed.

Lemma compose_headers (from_addr : option str)
      (to_email subject body : str) (cc_email : option str) (is_html : bool)
      (msg : MIMEMultipart) :
  compose from_addr to_email subject body cc_email is_html = inr msg ->
  mime_headers msg
  = mime_headers MIMEMultipart_new
    ++ [(lit "From", from_addr); (lit "To", Some to_email);
        (lit "Subject", Some subject)]
    ++ (if truthy cc_email then [(lit "Cc", cc_email)] else []).
Proof.
  unfold compose. intros H.
  destruct is_html;
    match type of H with
    | context [MIMEText_new ?b ?t] =>
        destruct (MIMEText_new b t); [discriminate |]
    end;
    injection H as <-; destruct (truthy cc_email); reflexivity.
Qed.

Lemma compose_parts (from_addr : option str)
      (to_email subject body : str) (cc_email : option str) (is_html : bool)
      (msg : MIMEMultipart) :
  compose from_addr to_email subject body cc_email is_html = inr msg ->
  mime_parts msg
  = [mkMIMEText body (if is_html then lit "html" else lit "plain")].
Proof.
  unfold compose. intros H.
  destruct is_html;
    match type of H with
    | context [MIMEText_new ?b ?t] =>
        destruct (MIMEText_new b t) as [e | part] eqn:P; [discriminate |]
    end;
    apply MIMEText_new_part in P; subst part;
    injection H as <-; destruct (truthy cc_email); reflexivity.
Qed.

(** Building the message fails exactly on a body with a surrogate, and then
    with the error of the codec. *)
Lemma compose_fails (from_addr : option str)
      (to_email subject body : str) (cc_email : option str) (is_html : bool)
      (e : exn) :
  compose from_addr to_email subject body cc_email is_html = inl e ->
  exists t, utf8_encode_error body = Some t /\ e = UnicodeEncodeError t.
Proof.
  unfold compose, MIMEText_new. intros H.
  destruct (utf8_encode_error body) as [t |].
  - exists t. split; [reflexivity |]. destruct is_html; now inversion H.
  - destruct is_html; discriminate.
Qed.

(** C2.  Whatever a send hands to [sendmail], the recipient list is the
    address [to_email] followed by the fields of the CC string and then
    those of the BCC string, each split on commas when it is given, and the
    fields set on the fresh [MIMEMultipart()] are exactly From, To, Subject,
    and Cc when a CC is given: no field of the message is named Bcc.  A
    successful send makes exactly that one transmission. *)
Theorem send_recipients_and_headers
        (py : Builtins) (env : environ) (w : world)
        (to_email subject body : str) (cc_email bcc_email : option str)
        (is_html : bool) (name : str) (r : send_result) (tr : list event) :
  run w [] (_send_email_helper py env to_email subject body cc_email
                               bcc_email is_html name) = (Done r, tr) ->
  let recipients :=
    [to_email] ++ split_if_given cc_email ++ split_if_given bcc_email in
  (forall from_addr to_addrs m,
      In (from_addr, to_addrs, m) (transmissions tr) ->
      to_addrs = recipients
      /\ compose (env (lit "EMAIL_ADDRESS")) to_email subject body cc_email
                 is_html = inr m)
  /\ (send_success r = true ->
      exists msg,
        compose (env (lit "EMAIL_ADDRESS")) to_email subject body cc_email
                is_html = inr msg
        /\ transmissions tr = [(env (lit "EMAIL_ADDRESS"), recipients, msg)])
  /\ (forall B C,
         cc_email = Some B -> bcc_email = Some C -> B <> [] -> C <> [] ->
         recipients = [to_email] ++ split_on comma B ++ split_on comma C)
  /\ (forall msg,
         compose (env (lit "EMAIL_ADDRESS")) to_email subject body cc_email
                 is_html = inr msg ->
         mime_headers msg
         = mime_headers MIMEMultipart_new
           ++ [(lit "From", env (lit "EMAIL_ADDRESS"));
               (lit "To", Some to_email); (lit "Subject", Some subject)]
           ++ (if truthy cc_email then [(lit "Cc", cc_email)] else [])
         /\ ~ In (lit "Bcc") (map fst (mime_headers msg))).
Proof.
  intros H recipients.
  assert (Hsent :
            (transmissions tr = []
             \/ exists msg,
                 compose (env (lit "EMAIL_ADDRESS")) to_email subject body
                         cc_email is_html = inr msg
                 /\ transmissions tr
                    = [(env (lit "EMAIL_ADDRESS"), recipients, msg)])
            /\ (send_success r = true ->
                exists msg,
                  compose (env (lit "EMAIL_ADDRESS")) to_email subject body
                          cc_email is_html = inr msg
                  /\ transmissions tr
                     = [(env (lit "EMAIL_ADDRESS"), recipients, msg)])).
  { unfold _send_email_helper in H. rewrite run_try_except in H.
    destruct (run w [] (send_body py env to_email subject body cc_email
                                  bcc_email is_html name))
      as [o tr0] eqn:Hb.
    apply send_body_transmits in Hb.
    unfold recipient_list in Hb. rewrite <- app_assoc in Hb.
    destruct Hb as [Hcases Hok]. destruct o as [a | e].
    - inversion H; subst. split; assumption.
    - destruct (run_send_handlers w tr0 e) as (r' & Hr' & Hfail).
      rewrite Hr' in H. inversion H; subst.
      split; [assumption |]. rewrite Hfail. discriminate. }
  destruct Hsent as [Hcases Hok].
  split.
  { intros from_addr to_addrs m Hin.
    destruct Hcases as [E | (msg & C & E)]; rewrite E in Hin; simpl in Hin.
    - contradiction.
    - destruct Hin as [Hin | []]. inversion Hin; subst. now split. }
  split; [exact Hok |].
  split.
  { intros B C -> -> HB HC. unfold recipients, split_if_given.
    destruct B; [contradiction |]. destruct C; [contradiction |].
    reflexivity. }
  intros msg C. split; [exact (compose_headers _ _ _ _ _ _ _ C) |].
  rewrite (compose_headers _ _ _ _ _ _ _ C).
  destruct (truthy cc_email); simpl; intros Hin;
    repeat (destruct Hin as [Hin | Hin]; [discriminate |]); exact Hin.
Qed.

(** A send to one address with two CC addresses and one BCC address, in a
    world that accepts it. *)
Lemma send_recipients_and_headers_witness :
  exists r tr msg,
    run Sample.world_ok []
        (_send_email_helper Sample.py0 Sample.env_configured
           (lit "a@example.org") (lit "subject") (lit "body")
           (Some (lit "b@example.org,c@example.org"))
           (Some (lit "d@example.org")) false (lit "gmail")) = (Done r, tr)
    /\ send_success r = true
    /\ compose (Some (lit "me@example.org")) (lit "a@example.org")
               (lit "subject") (lit "body")
               (Some (lit "b@example.org,c@example.org")) false = inr msg
    /\ transmissions tr
       = [(Some (lit "me@example.org"),
           [lit "a@example.org"; lit "b@example.org"; lit "c@example.org";
            lit "d@example.org"],
           msg)]
    /\ map (fun t => map fst (mime_headers (snd t))) (transmissions tr)
       = [[lit "Content-Type"; lit "MIME-Version"; lit "From"; lit "To";
           lit "Subject"; lit "Cc"]].
Proof.
  eexists. eexists.
  destruct (proj1 (proj2 (send_recipients_and_headers
                            Sample.py0 Sample.env_configured Sample.world_ok
                            (lit "a@example.org") (lit "subject")
                            (lit "body")
                            (Some (lit "b@example.org,c@example.org"))
                            (Some (lit "d@example.org")) false (lit "gmail")
                            _ _ eq_refl)) eq_refl)
    as (msg & C & E).
  exists msg. split; [reflexivity |]. split; [reflexivity |].
  split; [exact C |]. split; [exact E | reflexivity].
Defined.

(** ** The order of the summaries *)

Lemma summarize_id (py : Builtins) (config : EmailConfig) (email_id : bytes)
      (message_data : list fetch_item) (info : email_info) :
  summarize py config email_id message_data = inr info ->
  decode_strict email_id = inr (info_id info).
Proof.
  unfold summarize. intros H.
  destruct (first_literal message_data); [discriminate |].
  destruct (decode_strict email_id); [discriminate |].
  destruct (extract_body _); [discriminate |].
  now inversion H.
Qed.

Lemma fetches_cons (i : bytes) (s : str)
      (r : answer (str * list fetch_item)) (new : list event) :
  fetches (Ev (IMAP_fetch i s) r :: new) = i :: fetches new.
Proof.
  unfold fetches. cbn [collect fetch_of].
  destruct r as [[result data] | e]; reflexivity.
Qed.

Lemma fetched_ok_cons (i : bytes) (s : str) (result : str)
      (data : list fetch_item) (new : list event) :
  fetched_ok (Ev (IMAP_fetch i s) (Returned (result, data)) :: new)
  = if str_eqb result (lit "OK") then i :: fetched_ok new
    else fetched_ok new.
Proof.
  unfold fetched_ok. cbn [collect fetch_of filter snd].
  destruct (str_eqb result (lit "OK")); reflexivity.
Qed.

Lemma fetch_loop_run (py : Builtins) (w : world) (config : EmailConfig) :
  forall (ids : list bytes) (emails : list email_info) (past : list event)
         (o : outcome (list email_info)) (tr : list event),
    run w past (fetch_loop py config ids emails) = (o, tr) ->
    exists new,
      tr = past ++ new
      /\ searches new = []
      /\ match o with
         | Done es =>
             fetches new = ids
             /\ exists added,
                 es = emails ++ added
                 /\ Forall2 (fun i x => decode_strict i = inr (info_id x))
                            (fetched_ok new) added
         | Failed _ => exists k, fetches new = firstn k ids
         end.
Proof.
  induction ids as [| email_id rest IH]; intros emails past o tr H.
  - cbn [fetch_loop run] in H. inversion H; subst.
    exists []. rewrite app_nil_r. split; [reflexivity |].
    split; [reflexivity |].
    split; [reflexivity |]. exists []. rewrite app_nil_r.
    split; [reflexivity | constructor].
  - cbn [fetch_loop] in H. run_steps H.
    destruct (w _ past (IMAP_fetch email_id (lit "(RFC822)")))
      as [[result message_data] | e]; run_steps H.
    + destruct (str_eqb result (lit "OK")) eqn:E; run_steps H.
      * destruct (summarize py config email_id message_data)
          as [e | info] eqn:Hsum; run_steps H.
        { inversion H; subst. eexists. split; [reflexivity |].
          split; [reflexivity |].
          exists 1%nat. now rewrite fetches_cons. }
        apply IH in H. destruct H as (new & -> & Hs & Ho).
        eexists. split; [rewrite <- app_assoc; reflexivity |]. cbn [app].
        split; [exact Hs |].
        rewrite fetches_cons, fetched_ok_cons, E.
        destruct o as [es | e'].
        -- destruct Ho as (Hf & added & -> & Hall).
           split; [now rewrite Hf |].
           exists (info :: added).
           split; [rewrite <- app_assoc; reflexivity |].
           constructor; [| exact Hall].
           eapply summarize_id; eassumption.
        -- destruct Ho as (k & Hk). exists (S k). now rewrite Hk.
      * apply IH in H. destruct H as (new & -> & Hs & Ho).
        eexists. split; [rewrite <- app_assoc; reflexivity |]. cbn [app].
        split; [exact Hs |].
        rewrite fetches_cons, fetched_ok_cons, E.
        destruct o as [es | e'].
        -- destruct Ho as (Hf & added & -> & Hall).
           split; [now rewrite Hf |]. now exists added.
        -- destruct Ho as (k & Hk). exists (S k). now rewrite Hk.
    + inversion H; subst. eexists. split; [reflexivity |].
      split; [reflexivity |].
      exists 1%nat. now rewrite fetches_cons.
Qed.

Lemma slice_from_neg_lastn (A : Type) (l : list A) (n : Z) :
  1 <= n -> slice_from l (- n) = lastn (Z.to_nat n) l.
Proof.
  intros Hn. unfold slice_from, lastn.
  destruct (Z.ltb_spec (- n) 0); [| lia].
  f_equal. lia.
Qed.

Lemma read_body_success
      (py : Builtins) (env : environ) (w : world)
      (folder : str) (limit : Z) (unread_only : bool) (name : str)
      (r : read_result) (tr : list event) :
  run w [] (read_body py env folder limit unread_only name) = (Done r, tr) ->
  read_success r = true ->
  exists b rest,
    searches tr = [(lit "OK", Some b :: rest)]
    /\ fetches tr = rev (slice_from (split_ws b) (- limit))
    /\ Forall2 (fun i x => decode_strict i = inr (info_id x))
               (fetched_ok tr) (read_emails r).
Proof.
  intros H Hok. unfold read_body in H. run_steps H.
  destruct (EmailConfig_init py env name) as [e | config];
    [discriminate |].
  run_steps H.
  destruct (negb (validate_credentials config)).
  { inversion H; subst. discriminate. }
  run_steps H.
  destruct (get_imap_config config) as [e | imap_config]; [discriminate |].
  run_steps H.
  answer H; [| discriminate].
  answer H; [| discriminate].
  answer H; [| discriminate].
  match type of H with
  | context [w ?X ?p (IMAP_search ?c)] =>
      destruct (w X p (IMAP_search c)) as [[result message_ids] | e]
  end; run_steps H; [| discriminate].
  destruct (str_eqb result (lit "OK")) eqn:E; cbn [negb] in H;
    run_steps H; [| inversion H; subst; discriminate].
  apply str_eqb_eq in E. subst result.
  destruct message_ids as [| [b |] rest]; cbn [first_split] in H;
    run_steps H; try discriminate.
  match type of H with
  | context [run w ?p (fetch_loop ?a ?b ?c ?d)] =>
      destruct (run w p (fetch_loop a b c d)) as [o1 tr1] eqn:L
  end.
  apply fetch_loop_run in L. destruct L as (new & -> & Hs & Ho).
  destruct o1 as [es | e]; [| discriminate].
  destruct Ho as (Hf & added & -> & Hall).
  run_steps H. answer H; [| discriminate].
  inversion H; subst; clear H. cbn [read_emails app].
  exists b, rest. unfold searches, fetches, fetched_ok in *.
  cbn [collect search_of fetch_of].
  rewrite !collect_app, Hs.
  cbn [collect search_of fetch_of app filter map].
  rewrite !app_nil_r. auto.
Qed.

(** C4.  A read whose limit is at least 1 and that succeeds has searched
    once; with the identifiers of the answer in their order (oldest first),
    it fetches the last [limit] of them in reverse, newest first, and its
    summaries are, in that same order, those of the fetched messages that
    answered OK. *)
Theorem read_lists_newest_first
        (py : Builtins) (env : environ) (w : world)
        (folder : str) (limit : Z) (unread_only : bool) (name : str)
        (r : read_result) (tr : list event) :
  1 <= limit ->
  run w [] (_read_emails_helper py env folder limit unread_only name)
  = (Done r, tr) ->
  read_success r = true ->
  exists b rest,
    searches tr = [(lit "OK", Some b :: rest)]
    /\ fetches tr = rev (lastn (Z.to_nat limit) (split_ws b))
    /\ Forall2 (fun i x => decode_strict i = inr (info_id x))
               (fetched_ok tr) (read_emails r).
Proof.
  intros Hlimit H Hok. unfold _read_emails_helper in H.
  rewrite run_try_except in H.
  destruct (run w [] (read_body py env folder limit unread_only name))
    as [o tr0] eqn:Hb.
  destruct o as [a | e].
  - inversion H; subst.
    destruct (read_body_success _ _ _ _ _ _ _ _ _ Hb Hok)
      as (b & rest & Hs & Hf & Hall).
    exists b, rest. rewrite <- slice_from_neg_lastn by exact Hlimit.
    auto.
  - unfold read_handlers in H.
    destruct (is_IMAP4_error e); inversion H; subst; discriminate.
Qed.

(** The mailbox 1 to 5 read with limit 3: the summaries are those of 5, 4
    and 3, in that order. *)
Lemma read_lists_newest_first_witness :
  exists r tr,
    run Sample.world_ok []
        (_read_emails_helper Sample.py0 Sample.env_configured (lit "INBOX") 3
                             false (lit "gmail")) = (Done r, tr)
    /\ map info_id (read_emails r) = [lit "5"; lit "4"; lit "3"]
    /\ fetches tr = rev (lastn 3 (map Sample.ascii_bytes
                                     ["1"; "2"; "3"; "4"; "5"]%string))
    /\ exists b rest,
        searches tr = [(lit "OK", Some b :: rest)]
        /\ fetches tr = rev (lastn (Z.to_nat 3) (split_ws b))
        /\ Forall2 (fun i x => decode_strict i = inr (info_id x))
                   (fetched_ok tr) (read_emails r).
Proof.
  eexists. eexists. split; [vm_compute; reflexivity |].
  split; [reflexivity |]. split; [reflexivity |].
  apply (read_lists_newest_first Sample.py0 Sample.env_configured
           Sample.world_ok (lit "INBOX") 3 false (lit "gmail"));
    [lia | vm_compute; reflexivity | reflexivity].
Defined.

(** ** An interrupted read returns no summaries *)

(** Whether a message can be summarized does not depend on the
    configuration. *)
Lemma summarize_fails_for_all (py : Builtins) (c c' : EmailConfig)
      (id : bytes) (message_data : list fetch_item) (e : exn) :
  summarize py c id message_data = inl e ->
  summarize py c' id message_data = inl e.
Proof.
  unfold summarize.
  destruct (first_literal message_data) as [e1 | raw]; [auto |].
  destruct (decode_strict id) as [e2 | i]; [auto |].
  destruct (extract_body (message_from_bytes py raw)); [auto | discriminate].
Qed.

(** A loop that ends without an exception made calls that all returned,
    and summarized every message whose fetch answered ['OK']. *)
Lemma fetch_loop_summaries (py : Builtins) (w : world) (config : EmailConfig) :
  forall (ids : list bytes) (emails : list email_info) (past : list event)
         (es : list email_info) (tr : list event),
    run w past (fetch_loop py config ids emails) = (Done es, tr) ->
    exists new,
      tr = past ++ new
      /\ forallb returned new = true
      /\ Forall (fun p => exists x, summarize py config (fst p) (snd p) = inr x)
                (ok_fetches new).
Proof.
  induction ids as [| email_id rest IH]; intros emails past es tr H.
  - cbn [fetch_loop run] in H. inversion H; subst.
    exists []. rewrite app_nil_r. repeat split. constructor.
  - cbn [fetch_loop] in H. run_steps H.
    destruct (w _ past (IMAP_fetch email_id (lit "(RFC822)")))
      as [[result message_data] | e] eqn:A; run_steps H; [| discriminate].
    destruct (str_eqb result (lit "OK")) eqn:E; run_steps H.
    + destruct (summarize py config email_id message_data)
        as [e | info] eqn:Hsum; run_steps H; [discriminate |].
      apply IH in H. destruct H as (new & -> & Hr & Hall).
      eexists. split; [rewrite <- app_assoc; reflexivity |].
      cbn [app forallb returned]. split; [exact Hr |].
      unfold ok_fetches in *. cbn [collect ok_fetch_of]. rewrite E.
      constructor; [now exists info | exact Hall].
    + apply IH in H. destruct H as (new & -> & Hr & Hall).
      eexists. split; [rewrite <- app_assoc; reflexivity |].
      cbn [app forallb returned]. split; [exact Hr |].
      unfold ok_fetches in *. cbn [collect ok_fetch_of]. rewrite E.
      exact Hall.
Qed.

(** A read whose [try] block ends in a success was not interrupted. *)
Lemma read_body_success_uninterrupted
      (py : Builtins) (env : environ) (w : world)
      (folder : str) (limit : Z) (unread_only : bool) (name : str)
      (r : read_result) (tr : list event) :
  run w [] (read_body py env folder limit unread_only name) = (Done r, tr) ->
  read_success r = true ->
  ~ read_interrupted py tr.
Proof.
  intros H Hok. unfold read_body in H. run_steps H.
  destruct (EmailConfig_init py env name) as [e | config];
    [discriminate |].
  run_steps H.
  destruct (negb (validate_credentials config)).
  { inversion H; subst. discriminate. }
  run_steps H.
  destruct (get_imap_config config) as [e | imap_config]; [discriminate |].
  run_steps H.
  answer H; [| discriminate].
  answer H; [| discriminate].
  answer H; [| discriminate].
  match type of H with
  | context [w ?X ?p (IMAP_search ?c)] =>
      destruct (w X p (IMAP_search c)) as [[result message_ids] | e]
  end; run_steps H; [| discriminate].
  destruct (str_eqb result (lit "OK")) eqn:E; cbn [negb] in H;
    run_steps H; [| inversion H; subst; discriminate].
  destruct (first_split message_ids) as [e | email_ids];
    run_steps H; [discriminate |].
  match type of H with
  | context [run w ?p (fetch_loop ?a ?b ?c ?d)] =>
      destruct (run w p (fetch_loop a b c d)) as [o1 tr1] eqn:L
  end.
  destruct o1 as [es | e]; [| discriminate].
  apply fetch_loop_summaries in L. destruct L as (new & -> & Hr & Hall).
  run_steps H. answer H; [| discriminate].
  inversion H; subst; clear H.
  intros [(e & Hin & He) | (id & message_data & config' & e & Hin & He)].
  - match type of Hin with
    | In _ ?t =>
        assert (Hret : forallb returned t = true)
          by (cbn [forallb returned andb]; rewrite forallb_app, Hr;
              reflexivity)
    end.
    rewrite forallb_forall in Hret. rewrite (Hret e Hin) in He.
    discriminate.
  - unfold ok_fetches in Hin. cbn [collect ok_fetch_of] in Hin.
    rewrite collect_app in Hin.
    cbn [collect ok_fetch_of app] in Hin. rewrite app_nil_r in Hin.
    rewrite Forall_forall in Hall.
    destruct (Hall _ Hin) as (info & Hx). cbn [fst snd] in Hx.
    rewrite (summarize_fails_for_all py config' config id message_data e He)
      in Hx.
    discriminate.
Qed.

(** C10.  When an exception is raised in the middle of a read, by a call or
    by the summary of a message that was fetched, the result is a failure
    without a count and with an empty list, however many summaries had
    been built before: what the loop collected is not returned.  More
    generally every failure result of the read has an empty list. *)
Theorem read_failure_returns_no_emails
        (py : Builtins) (env : environ) (w : world)
        (folder : str) (limit : Z) (unread_only : bool) (name : str)
        (r : read_result) (tr : list event) :
  run w [] (_read_emails_helper py env folder limit unread_only name)
  = (Done r, tr) ->
  (read_interrupted py tr ->
   read_success r = false /\ read_count r = None /\ read_emails r = [])
  /\ (read_success r = false -> read_emails r = []).
Proof.
  intros Hrun.
  assert (Hfail : read_success r = false ->
                  read_emails r = [] /\ read_count r = None).
  { destruct (post_run _ _ _ w _ (read_helper_failure_post py env folder limit
                                    unread_only name) [])
      as (o & tr' & Hr & Ho).
    rewrite Hrun in Hr. inversion Hr; subst. exact Ho. }
  split; [| intros Hf; now apply Hfail].
  intros Hint.
  destruct (read_success r) eqn:Hok; [| now destruct (Hfail eq_refl)].
  exfalso. unfold _read_emails_helper in Hrun.
  rewrite run_try_except in Hrun.
  destruct (run w [] (read_body py env folder limit unread_only name))
    as [o tr0] eqn:Hb.
  destruct o as [a | e].
  - inversion Hrun; subst.
    exact (read_body_success_uninterrupted py env w folder limit unread_only
             name r tr Hb Hok Hint).
  - unfold read_handlers in Hrun.
    destruct (is_IMAP4_error e); cbn [run] in Hrun; inversion Hrun; subst;
      discriminate Hok.
Qed.

(** In a mailbox whose message 4 is gone, message 5 is fetched and
    summarized, the fetch of 4 answers ['OK'] with data that cannot be
    summarized, and the result is a failure without any summary. *)
Lemma read_failure_returns_no_emails_witness :
  exists r tr,
    run Sample.world_message_gone []
        (_read_emails_helper Sample.py0 Sample.env_configured (lit "INBOX") 3
                             false (lit "gmail")) = (Done r, tr)
    /\ map fst (ok_fetches tr)
       = [Sample.ascii_bytes "5"; Sample.ascii_bytes "4"]
    /\ (exists x,
           summarize Sample.py0 (mkEmailConfig [] None None [] [])
                     (Sample.ascii_bytes "5")
                     [FetchPair (Sample.ascii_bytes "5 (RFC822 {5}")
                                (Sample.ascii_bytes "hello");
                      FetchBytes (Sample.ascii_bytes ")")] = inr x)
    /\ read_message r
       = lit "Unexpected error: 'NoneType' object is not subscriptable"
    /\ read_success r = false /\ read_count r = None /\ read_emails r = [].
Proof.
  eexists. eexists. split; [vm_compute; reflexivity |].
  split; [reflexivity |].
  split; [eexists; vm_compute; reflexivity |].
  split; [reflexivity |].
  apply (proj1 (read_failure_returns_no_emails
                  Sample.py0 Sample.env_configured Sample.world_message_gone
                  (lit "INBOX") 3 false (lit "gmail") _ _ eq_refl)).
  right. exists (Sample.ascii_bytes "4"), [FetchNone],
    (mkEmailConfig [] None None [] []).
  eexists. split; [right; left; reflexivity | vm_compute; reflexivity].
Defined.

(** ** Concrete runs *)

(** C1, as stated, fails: with no credentials and [SMTP_PORT=abc] the
    configuration cannot be built, and the send operation reports the
    [ValueError] of the port instead of the "not configured" diagnostic
    (still without any call). *)
Lemma unconfigured_send_with_bad_port_reports_the_port :
  credentials_missing Sample.env_bad_port
  /\ run Sample.world_ok []
         (_send_email_helper Sample.py0 Sample.env_bad_port
            (lit "a@example.org") (lit "subject") (lit "body") None None
            false (lit "gmail"))
     = (Done (mkSendResult false
                (lit "Unexpected error: invalid literal for int() with base 10: 'abc'")
                None),
        [])
  /\ lit "Unexpected error: invalid literal for int() with base 10: 'abc'"
     <> send_message not_configured_send.
Proof.
  split; [left; reflexivity |]. split; [reflexivity |].
  vm_compute. discriminate.
Qed.

Lemma unconfigured_operations_make_no_call_witness :
  credentials_missing Sample.env_empty
  /\ run Sample.world_ok []
         (_send_email_helper Sample.py0 Sample.env_empty
            (lit "a@example.org") (lit "subject") (lit "body") None None
            false (lit "gmail"))
     = (Done not_configured_send, [])
  /\ run Sample.world_ok []
         (_read_emails_helper Sample.py0 Sample.env_empty (lit "INBOX") 5
            false (lit "gmail"))
     = (Done not_configured_read, [])
  /\ run Sample.world_ok []
         (_test_email_connection_helper Sample.py0 Sample.env_empty
            (lit "gmail"))
     = (Done (not_configured_test (lit "gmail")), []).
Proof.
  assert (Hm : credentials_missing Sample.env_empty) by (left; reflexivity).
  assert (Hp : ports_are_numbers Sample.py0 Sample.env_empty)
    by (split; eexists; reflexivity).
  destruct (unconfigured_operations_make_no_call
              Sample.py0 Sample.env_empty Sample.world_ok Hm)
    as (Hs & Hr & Ht).
  split; [exact Hm |]. split; [| split].
  - destruct (Hs (lit "a@example.org") (lit "subject") (lit "body") None None
                false (lit "gmail")) as (r & Hrun & _ & Hnc).
    rewrite (Hnc Hp) in Hrun. exact Hrun.
  - destruct (Hr (lit "INBOX") 5 false (lit "gmail"))
      as (r & Hrun & _ & _ & Hnc).
    rewrite (Hnc Hp) in Hrun. exact Hrun.
  - destruct (Ht (lit "gmail")) as (r & Hrun & _ & Hnc).
    rewrite (Hnc Hp) in Hrun. exact Hrun.
Defined.

Lemma unknown_provider_resolves_to_gmail_witness :
  exists config,
    EmailConfig_init Sample.py0 Sample.env_empty (lit "Hotmail") = inr config
    /\ provider config = lit "hotmail"
    /\ get_smtp_config config = inr gmail_smtp
    /\ get_imap_config config = inr gmail_imap.
Proof.
  eexists. split; [reflexivity |]. split; [reflexivity |].
  apply (unknown_provider_resolves_to_gmail Sample.py0 Sample.env_empty
           (lit "Hotmail")); [reflexivity |].
  vm_compute. intros [H | [H | [H | [H | H]]]];
    solve [discriminate H | exact H].
Defined.

(** A fetched message whose body has 250 characters. *)
Lemma body_preview_is_capped_at_200_witness :
  exists info,
    summarize Sample.py0
              (mkEmailConfig (lit "gmail") (Some (lit "me@example.org"))
                             (Some (lit "secret")) [] [])
              (Sample.ascii_bytes "7")
              [FetchPair (Sample.ascii_bytes "7 (RFC822 {250}")
                         (repeat "x"%byte 250)]
    = inr info
    /\ info_body_preview info = repeat 120%N 200 ++ lit "..."
    /\ List.length (info_body_preview info) = 203%nat.
Proof.
  eexists. split; [vm_compute; reflexivity |].
  match goal with
  | |- info_body_preview ?i = _ /\ _ =>
      destruct (body_preview_is_capped_at_200
                  Sample.py0
                  (mkEmailConfig (lit "gmail") (Some (lit "me@example.org"))
                                 (Some (lit "secret")) [] [])
                  (Sample.ascii_bytes "7")
                  [FetchPair (Sample.ascii_bytes "7 (RFC822 {250}")
                             (repeat "x"%byte 250)]
                  i eq_refl)
        as (raw & body & Hraw & Hbody & _ & Hlong)
  end.
  cbn [first_literal] in Hraw. injection Hraw as Hr. subst raw.
  vm_compute in Hbody. injection Hbody as Hb. subst body.
  destruct Hlong as [Hp Hl]; [vm_compute; lia |].
  split; [exact Hp | exact Hl].
Defined.

(** C3 fails on the code: a rejected login makes [_send_email_helper]
    return with the SMTP session connected and never closed, and a search
    that answers ['NO'] makes [_read_emails_helper] return early with the
    IMAP session logged in and never logged out. *)
Theorem failed_operations_leave_the_session_open :
  (exists r tr,
      run Sample.world_rejects_login []
          (_send_email_helper Sample.py0 Sample.env_configured
             (lit "a@example.org") (lit "subject") (lit "body") None None
             false (lit "gmail")) = (Done r, tr)
      /\ send_message r
         = lit "Authentication failed. Check your email credentials or use app-specific password."
      /\ map opens_session tr = [true; false; false]
      /\ map closes_session tr = [false; false; false])
  /\ (exists r tr,
         run Sample.world_search_no []
             (_read_emails_helper Sample.py0 Sample.env_configured
                (lit "INBOX") 5 false (lit "gmail")) = (Done r, tr)
         /\ read_message r = lit "Failed to search emails"
         /\ map opens_session tr = [true; false; false; false]
         /\ map closes_session tr = [false; false; false; false]).
Proof.
  split; eexists; eexists; (split; [vm_compute; reflexivity |]);
    repeat split.
Qed.

(** On the path without errors both sessions are closed. *)
Lemma successful_operations_close_the_session :
  (exists r tr,
      run Sample.world_ok []
          (_send_email_helper Sample.py0 Sample.env_configured
             (lit "a@example.org") (lit "subject") (lit "body") None None
             false (lit "gmail")) = (Done r, tr)
      /\ send_success r = true
      /\ map closes_session tr = [false; false; false; false; true; false])
  /\ (exists r tr,
         run Sample.world_ok []
             (_read_emails_helper Sample.py0 Sample.env_configured
                (lit "INBOX") 1 false (lit "gmail")) = (Done r, tr)
         /\ read_success r = true
         /\ map closes_session tr
            = [false; false; false; false; false; true]).
Proof.
  split; eexists; eexists; (split; [vm_compute; reflexivity |]);
    repeat split.
Qed.

(** ** Decoding a body *)

Section Codec.

Import Utf8.

Ltac scan_case :=
  match goal with
  | |- context [if ?c then _ else _] => destruct c eqn:?
  | |- context [match ?l with [] => _ | _ :: _ => _ end] =>
      destruct l as [| ? ?]
  end.

Ltac replay :=
  repeat (cbv beta iota zeta;
          match goal with
          | H : ?c = true |- context [?c] => rewrite H
          | H : ?c = false |- context [?c] => rewrite H
          end).

Lemma scan_chunks_ok :
  forall (n : nat) (b : bytes),
    (List.length b <= n)%nat -> Forall chunk_ok (scan b).
Proof.
  induction n as [| n IH]; intros b Hlen.
  - destruct b; [constructor | simpl in Hlen; lia].
  - destruct b as [| x0 s1]; [constructor |].
    cbn [scan]. cbv zeta.
    repeat scan_case;
      (constructor;
       [ try exact I; intros rest; cbn [app scan]; replay; reflexivity
       | first [ constructor | apply IH; simpl in *; lia ] ]).
Qed.

Lemma scan_partitions_upto :
  forall (n : nat) (b : bytes),
    (List.length b <= n)%nat -> flat_map chunk_bytes (scan b) = b.
Proof.
  induction n as [| n IH]; intros b Hlen.
  - destruct b; [reflexivity | simpl in Hlen; lia].
  - destruct b as [| x0 s1]; [reflexivity |].
    cbn [scan]. cbv zeta.
    repeat scan_case; cbn [flat_map chunk_bytes app];
      rewrite ?IH by (simpl in *; lia); reflexivity.
Qed.

Lemma scan_kept (cs : list chunk) :
  Forall chunk_ok cs ->
  scan (kept_bytes cs) = filter (fun k => negb (is_undecodable k)) cs.
Proof.
  induction 1 as [| k cs Hk Hcs IH]; [reflexivity |].
  destruct k as [c src | bad why]; cbn [kept_bytes flat_map filter
                                         is_undecodable negb].
  - fold (kept_bytes cs). rewrite Hk, IH. reflexivity.
  - exact IH.
Qed.

Lemma assemble_kept (cs : list chunk) :
  forall (mode : errors) (pos : nat),
    assemble mode pos (filter (fun k => negb (is_undecodable k)) cs)
    = inr (flat_map (render []) cs).
Proof.
  induction cs as [| [c src | bad why] cs IH]; intros mode pos;
    cbn [filter is_undecodable negb assemble flat_map render app].
  - reflexivity.
  - now rewrite IH.
  - apply IH.
Qed.

Lemma assemble_ignore (cs : list chunk) :
  forall pos, assemble Ignore pos cs = inr (flat_map (render []) cs).
Proof.
  induction cs as [| [c src | bad why] cs IH]; intros pos;
    cbn [assemble flat_map render app].
  - reflexivity.
  - now rewrite IH.
  - apply IH.
Qed.

Lemma assemble_replace (cs : list chunk) :
  forall pos,
    assemble Replace pos cs
    = inr (flat_map (render [replacement_character]) cs).
Proof.
  induction cs as [| [c src | bad why] cs IH]; intros pos;
    cbn [assemble flat_map render app].
  - reflexivity.
  - now rewrite IH.
  - now rewrite IH.
Qed.

Lemma assemble_strict_ignore (cs : list chunk) :
  forall pos t, assemble Strict pos cs = inr t ->
                assemble Ignore pos cs = inr t.
Proof.
  induction cs as [| [c src | bad why] cs IH]; intros pos t H;
    cbn [assemble] in *.
  - exact H.
  - destruct (assemble Strict (pos + List.length src) cs) as [e | t'] eqn:E;
      [discriminate |].
    now rewrite (IH _ _ E).
  - discriminate.
Qed.

End Codec.

(** C7 fails as stated: the byte 0xFF between [a] and [b] is not replaced
    by U+FFFD, it disappears. *)
Lemma undecodable_byte_is_not_replaced :
  Utf8.decode Utf8.Replace [x61; xff; x62] = inr [97; 65533; 98]%N
  /\ decode_ignore (Some [x61; xff; x62]) = inr [97; 98]%N
  /\ ~ In Utf8.replacement_character [97; 98]%N.
Proof.
  split; [reflexivity |]. split; [reflexivity |].
  intros [H | [H | []]]; discriminate H.
Qed.

(** C7, as the code has it.  Decoding a body never raises, and undecodable
    byte sequences are dropped: the scanner cuts the bytes into decoded
    characters and undecodable pieces, the text is made of the decoded
    characters alone (where the [replace] handler would write U+FFFD for
    each piece), and it is the strict decoding of the input without its
    undecodable pieces.  On well-formed input it is the strict decoding. *)
Theorem undecodable_bytes_are_dropped (b : bytes) :
  flat_map Utf8.chunk_bytes (Utf8.scan b) = b
  /\ decode_ignore (Some b)
     = inr (flat_map (Utf8.render []) (Utf8.scan b))
  /\ Utf8.decode Utf8.Replace b
     = inr (flat_map (Utf8.render [Utf8.replacement_character])
                     (Utf8.scan b))
  /\ Utf8.decode Utf8.Strict (Utf8.kept_bytes (Utf8.scan b))
     = inr (flat_map (Utf8.render []) (Utf8.scan b))
  /\ match Utf8.decode Utf8.Strict b with
     | inr t => decode_ignore (Some b) = inr t
     | inl _ => True
     end.
Proof.
  split; [apply (scan_partitions_upto (List.length b)); lia |].
  split.
  { unfold decode_ignore, Utf8.decode. now rewrite assemble_ignore. }
  split; [apply assemble_replace |].
  split.
  { unfold Utf8.decode. rewrite scan_kept.
    - apply assemble_kept.
    - apply (scan_chunks_ok (List.length b)). lia. }
  destruct (Utf8.decode Utf8.Strict b) as [e | t] eqn:E; [exact I |].
  unfold decode_ignore, Utf8.decode in *.
  now rewrite (assemble_strict_ignore _ _ _ E).
Qed.

(** * More of the module *)

(** ** The order of the calls of a send *)

(** A configuration that was built resolves both of its profiles. *)
Lemma built_config_resolves (py : Builtins) (env : environ) (name : str)
      (config : EmailConfig) :
  EmailConfig_init py env name = inr config ->
  exists s i,
    get_smtp_config config = inr s /\ get_imap_config config = inr i.
Proof.
  intros H.
  destruct (EmailConfig_init_provider _ _ _ _ H) as (_ & Hs & Hi & _).
  unfold get_smtp_config, get_imap_config, get_or_gmail. rewrite Hs, Hi.
  destruct (dict_get (smtp_configs config) (provider config));
    destruct (dict_get (imap_configs config) (provider config));
    eexists; eexists; split; reflexivity.
Qed.

Lemma send_body_in_order
      (py : Builtins) (env : environ) (w : world)
      (to_email subject body : str) (cc_email bcc_email : option str)
      (is_html : bool) (name : str) (o : outcome send_result)
      (tr : list event) :
  run w [] (send_body py env to_email subject body cc_email bcc_email is_html
                      name) = (o, tr) ->
  prefix_of (map kind_of tr) send_script
  /\ stops_at_first_error tr = true
  /\ match o with
     | Done r =>
         (send_success r = true /\ map kind_of tr = send_script
          /\ forallb returned tr = true)
         \/ (r = not_configured_send /\ tr = [])
     | Failed e =>
         ((tr = []
           /\ (EmailConfig_init py env name = inl e
               \/ compose (env (lit "EMAIL_ADDRESS")) to_email subject body
                          cc_email is_html = inl e))
          \/ option_map raised (last_event tr) = Some (Some e)
          \/ (exists msg,
                 compose (env (lit "EMAIL_ADDRESS")) to_email subject body
                         cc_email is_html = inr msg
                 /\ as_string_error py msg = Some e
                 /\ map kind_of tr = [SmtpConnect; SmtpStarttls; SmtpLogin]
                 /\ forallb returned tr = true))
         /\ (map kind_of tr = send_script -> forallb returned tr = false)
     end.
Proof.
  intros H. unfold send_body in H. run_steps H.
  destruct (EmailConfig_init py env name) as [e | config] eqn:E.
  { inversion H; subst. split; [now eexists |]. split; [reflexivity |].
    split; [left; split; [reflexivity | now left] | discriminate]. }
  destruct (built_config_resolves _ _ _ _ E) as (s & i & Hs & _).
  apply EmailConfig_init_credentials in E as [Ea Ep].
  run_steps H.
  destruct (negb (validate_credentials config)).
  { inversion H; subst. split; [now eexists |]. split; [reflexivity |].
    now right. }
  run_steps H. rewrite Ea, Hs in H.
  destruct (compose (env (lit "EMAIL_ADDRESS")) to_email subject body
                    cc_email is_html) as [e | msg] eqn:C.
  { inversion H; subst. split; [now eexists |]. split; [reflexivity |].
    split; [left; split; [reflexivity | now right] | discriminate]. }
  run_steps H.
  answer H;
    [| inversion H; subst; split; [now eexists |]; split; [reflexivity |];
       split; [now (right; left) | discriminate]].
  answer H;
    [| inversion H; subst; split; [now eexists |]; split; [reflexivity |];
       split; [now (right; left) | discriminate]].
  answer H;
    [| inversion H; subst; split; [now eexists |]; split; [reflexivity |];
       split; [now (right; left) | discriminate]].
  unfold as_string in H.
  destruct (as_string_error py msg) as [e |] eqn:A; run_steps H.
  { inversion H; subst. split; [now eexists |]. split; [reflexivity |].
    split; [| discriminate].
    right. right. exists msg. now repeat split. }
  answer H;
    [| inversion H; subst; split; [now eexists |]; split; [reflexivity |];
       split; [now (right; left) | discriminate]].
  answer H;
    [| inversion H; subst; split; [now eexists |]; split; [reflexivity |];
       split; [now (right; left) | discriminate]].
  answer H; inversion H; subst.
  - split; [now exists [] |]. split; [reflexivity |]. left. now repeat split.
  - split; [now exists [] |]. split; [reflexivity |].
    split; [now (right; left) | reflexivity].
Qed.

Lemma no_kind_no_transmission (tr : list event) :
  ~ In SmtpSendmail (map kind_of tr) -> transmissions tr = [].
Proof.
  unfold transmissions.
  induction tr as [| [X c a] tr IH]; [reflexivity |].
  cbn [map In collect]. intros H.
  destruct c; cbn [transmission kind_of] in *;
    try (apply IH; intros K; apply H; now right).
  exfalso. apply H. now left.
Qed.

Lemma run_send_handlers_message (w : world) (past : list event) (e : exn) :
  run w past (send_handlers e)
  = (Done (mkSendResult false (send_failure_message e) None), past).
Proof.
  unfold send_handlers, send_failure_message, is_SMTPAuthenticationError,
    is_SMTPException.
  destruct (exn_class_of e); reflexivity.
Qed.

(** X1.  The calls of a send are an initial segment of: connect, starttls,
    login, sendmail, quit, clock.  Each is made only after all the calls
    before it returned (so the login is never attempted unless STARTTLS
    succeeded, and nothing is transmitted before the login returned), and
    the result is a success exactly when all six were made and returned. *)
Theorem send_calls_in_order
        (py : Builtins) (env : environ) (w : world)
        (to_email subject body : str) (cc_email bcc_email : option str)
        (is_html : bool) (name : str) (r : send_result) (tr : list event) :
  run w [] (_send_email_helper py env to_email subject body cc_email
                               bcc_email is_html name) = (Done r, tr) ->
  prefix_of (map kind_of tr) send_script
  /\ stops_at_first_error tr = true
  /\ (send_success r = true <->
      map kind_of tr = send_script /\ forallb returned tr = true).
Proof.
  intros H. unfold _send_email_helper in H. rewrite run_try_except in H.
  destruct (run w [] (send_body py env to_email subject body cc_email
                                bcc_email is_html name)) as [o tr0] eqn:Hb.
  apply send_body_in_order in Hb. destruct Hb as (Hp & Hs & Ho).
  destruct o as [a | e].
  - inversion H; subst. split; [exact Hp |]. split; [exact Hs |].
    destruct Ho as [(Hok & Hk & Hr) | [-> ->]].
    + rewrite Hok. now split.
    + split; [discriminate | intros [Hk _]; discriminate].
  - rewrite run_send_handlers_message in H. inversion H; subst.
    split; [exact Hp |]. split; [exact Hs |].
    cbn [send_success]. split; [discriminate |].
    intros [Hk Hr]. destruct Ho as [_ Hno]. rewrite (Hno Hk) in Hr.
    discriminate.
Qed.

Lemma send_calls_in_order_witness :
  exists r tr,
    run Sample.world_rejects_login []
        (_send_email_helper Sample.py0 Sample.env_configured
           (lit "a@example.org") (lit "subject") (lit "body") None None
           false (lit "gmail")) = (Done r, tr)
    /\ map kind_of tr = [SmtpConnect; SmtpStarttls; SmtpLogin]
    /\ prefix_of (map kind_of tr) send_script
    /\ stops_at_first_error tr = true
    /\ (send_success r = true <->
        map kind_of tr = send_script /\ forallb returned tr = true).
Proof.
  eexists. eexists. split; [vm_compute; reflexivity |].
  split; [reflexivity |].
  apply (send_calls_in_order Sample.py0 Sample.env_configured
           Sample.world_rejects_login (lit "a@example.org") (lit "subject")
           (lit "body") None None false (lit "gmail")).
  vm_compute; reflexivity.
Defined.

(** X2.  A failed send reports the exception that ended it by its class:
    the fixed authentication text for an [SMTPAuthenticationError],
    ["SMTP error: "] and the text of any other [SMTPException],
    ["Unexpected error: "] and the text of anything else.  That exception
    was raised by the last call of the send, or by [as_string()] after
    connect, starttls and login had returned and before anything was
    handed to [sendmail], or, no call having been made, by the constructor
    of the configuration or by the construction of the text part.  The
    only other failure is that of missing credentials, which makes no
    call. *)
Theorem send_failure_names_the_exception
        (py : Builtins) (env : environ) (w : world)
        (to_email subject body : str) (cc_email bcc_email : option str)
        (is_html : bool) (name : str) (r : send_result) (tr : list event) :
  run w [] (_send_email_helper py env to_email subject body cc_email
                               bcc_email is_html name) = (Done r, tr) ->
  send_success r = false ->
  (tr = [] /\ r = not_configured_send)
  \/ exists e,
      r = mkSendResult false (send_failure_message e) None
      /\ ((tr = []
           /\ (EmailConfig_init py env name = inl e
               \/ compose (env (lit "EMAIL_ADDRESS")) to_email subject body
                          cc_email is_html = inl e))
          \/ option_map raised (last_event tr) = Some (Some e)
          \/ (exists msg,
                 compose (env (lit "EMAIL_ADDRESS")) to_email subject body
                         cc_email is_html = inr msg
                 /\ as_string_error py msg = Some e
                 /\ map kind_of tr = [SmtpConnect; SmtpStarttls; SmtpLogin]
                 /\ forallb returned tr = true
                 /\ transmissions tr = [])).
Proof.
  intros H Hfail. unfold _send_email_helper in H. rewrite run_try_except in H.
  destruct (run w [] (send_body py env to_email subject body cc_email
                                bcc_email is_html name)) as [o tr0] eqn:Hb.
  apply send_body_in_order in Hb. destruct Hb as (_ & _ & Ho).
  destruct o as [a | e].
  - inversion H; subst.
    destruct Ho as [(Hok & _) | [-> ->]]; [congruence | now left].
  - rewrite run_send_handlers_message in H. inversion H; subst.
    right. exists e. split; [reflexivity |].
    destruct Ho as [[Hc | [Hl | (msg & C & A & Hk & Hr)]] _].
    + now left.
    + right. now left.
    + right. right. exists msg. repeat (split; [assumption |]).
      apply no_kind_no_transmission. rewrite Hk. cbn.
      intros [K | [K | [K | []]]]; discriminate K.
Qed.

(** A subject that holds a line break and then a header of its own: the
    session is opened and the login returns, [as_string()] refuses the
    message, and nothing is sent. *)
Lemma send_failure_names_the_exception_witness :
  exists r tr e,
    run Sample.world_ok []
        (_send_email_helper Sample.py0 Sample.env_configured
           (lit "a@example.org")
           (lit "Hi" ++ nl ++ lit "Bcc: x@example.org") (lit "body") None
           None false (lit "gmail")) = (Done r, tr)
    /\ send_message r
       = lit "Unexpected error: header value appears to contain an embedded header: 'Hi\nBcc: x@example.org'"
    /\ r = mkSendResult false (send_failure_message e) None
    /\ map kind_of tr = [SmtpConnect; SmtpStarttls; SmtpLogin]
    /\ forallb returned tr = true
    /\ transmissions tr = [].
Proof.
  eexists. eexists.
  destruct (send_failure_names_the_exception
              Sample.py0 Sample.env_configured Sample.world_ok
              (lit "a@example.org")
              (lit "Hi" ++ nl ++ lit "Bcc: x@example.org") (lit "body") None
              None false (lit "gmail") _ _ eq_refl eq_refl)
    as [[He _] | (e & Hr & [[He _] | [Hl | (msg & _ & _ & Hk & Hret & Ht)]])].
  - discriminate He.
  - discriminate He.
  - vm_compute in Hl. discriminate Hl.
  - exists e. split; [reflexivity |]. split; [reflexivity |].
    split; [exact Hr |]. split; [exact Hk |]. split; [exact Hret | exact Ht].
Defined.

(** ** The connection test *)

Ltac stopped H :=
  inversion H; subst; repeat split;
  solve [ reflexivity | discriminate | now eexists | now left | now right ].

Lemma test_body_in_order
      (py : Builtins) (env : environ) (w : world) (name : str)
      (o : outcome test_result) (tr : list event) :
  run w [] (test_body py env name) = (o, tr) ->
  prefix_of (map kind_of tr) test_script
  /\ stops_at_first_error tr = true
  /\ transmissions tr = []
  /\ selections tr = []
  /\ criteria tr = []
  /\ fetches tr = []
  /\ match o with
     | Done r =>
         (test_success r = true /\ map kind_of tr = test_script
          /\ forallb returned tr = true)
         \/ (r = not_configured_test name /\ tr = [])
     | Failed e =>
         (tr = [] \/ option_map raised (last_event tr) = Some (Some e))
         /\ (map kind_of tr = test_script -> forallb returned tr = false)
     end.
Proof.
  intros H. unfold test_body in H. run_steps H.
  destruct (EmailConfig_init py env name) as [e | config] eqn:E;
    [stopped H |].
  destruct (built_config_resolves _ _ _ _ E) as (s & i & Hs & Hi).
  rewrite Hs, Hi in H. clear E Hs Hi.
  run_steps H.
  destruct (negb (validate_credentials config)); [stopped H |].
  run_steps H.
  answer H; [| stopped H].
  answer H; [| stopped H].
  answer H; [| stopped H].
  answer H; [| stopped H].
  answer H; [| stopped H].
  answer H; [| stopped H].
  answer H; [| stopped H].
  inversion H; subst. repeat split; try reflexivity; try now (exists []).
  left. now repeat split.
Qed.

(** X3.  The calls of a connection test are an initial segment of: SMTP
    connect, starttls, login, quit, then IMAP connect, login, logout, each
    made only after all the calls before it returned: the IMAP server is not
    contacted unless the SMTP leg was completed and closed.  The test never
    sends a message and never selects, searches or fetches, and it succeeds
    exactly when all seven calls were made and returned. *)
Theorem test_calls_in_order
        (py : Builtins) (env : environ) (w : world) (name : str)
        (r : test_result) (tr : list event) :
  run w [] (_test_email_connection_helper py env name) = (Done r, tr) ->
  prefix_of (map kind_of tr) test_script
  /\ stops_at_first_error tr = true
  /\ transmissions tr = []
  /\ selections tr = []
  /\ criteria tr = []
  /\ fetches tr = []
  /\ (test_success r = true <->
      map kind_of tr = test_script /\ forallb returned tr = true).
Proof.
  intros H. unfold _test_email_connection_helper in H.
  rewrite run_try_except in H.
  destruct (run w [] (test_body py env name)) as [o tr0] eqn:Hb.
  apply test_body_in_order in Hb.
  destruct Hb as (Hp & Hs & Ht & Hsel & Hc & Hf & Ho).
  assert (tr = tr0) as ->.
  { destruct o; cbn in H; now inversion H. }
  repeat (split; [assumption |]).
  destruct o as [a | e]; cbn in H; inversion H; subst.
  - destruct Ho as [(Hok & Hk & Hr) | [-> ->]].
    + rewrite Hok. now split.
    + split; [discriminate | intros [Hk _]; discriminate].
  - cbn [test_success]. split; [discriminate |].
    intros [Hk Hr]. destruct Ho as [_ Hno]. rewrite (Hno Hk) in Hr.
    discriminate.
Qed.

Lemma test_calls_in_order_witness :
  exists r tr,
    run Sample.world_rejects_login []
        (_test_email_connection_helper Sample.py0 Sample.env_configured
                                       (lit "gmail")) = (Done r, tr)
    /\ map kind_of tr = [SmtpConnect; SmtpStarttls; SmtpLogin]
    /\ test_success r = false
    /\ prefix_of (map kind_of tr) test_script
    /\ stops_at_first_error tr = true
    /\ transmissions tr = []
    /\ selections tr = []
    /\ criteria tr = []
    /\ fetches tr = []
    /\ (test_success r = true <->
        map kind_of tr = test_script /\ forallb returned tr = true).
Proof.
  eexists. eexists. split; [vm_compute; reflexivity |].
  split; [reflexivity |]. split; [reflexivity |].
  apply (test_calls_in_order Sample.py0 Sample.env_configured
           Sample.world_rejects_login (lit "gmail")).
  vm_compute; reflexivity.
Defined.

(** X4.  A failed connection test that made a call failed because its last
    call raised, and it reports ["Connection failed: "] and the text of that
    exception, whichever of the two servers raised it and whatever its
    class; the result repeats the provider name as it was given. *)
Theorem test_failure_names_the_exception
        (py : Builtins) (env : environ) (w : world) (name : str)
        (r : test_result) (tr : list event) :
  run w [] (_test_email_connection_helper py env name) = (Done r, tr) ->
  test_success r = false ->
  (tr = [] /\ r = not_configured_test name)
  \/ exists e,
      r = mkTestResult false (lit "Connection failed: " ++ exn_text e) name
                       None None None
      /\ (tr = [] \/ option_map raised (last_event tr) = Some (Some e)).
Proof.
  intros H Hfail. unfold _test_email_connection_helper in H.
  rewrite run_try_except in H.
  destruct (run w [] (test_body py env name)) as [o tr0] eqn:Hb.
  apply test_body_in_order in Hb.
  destruct Hb as (_ & _ & _ & _ & _ & _ & Ho).
  destruct o as [a | e]; cbn in H; inversion H; subst.
  - destruct Ho as [(Hok & _) | [-> ->]]; [congruence | now left].
  - right. exists e. split; [reflexivity | apply Ho].
Qed.

Lemma test_failure_names_the_exception_witness :
  exists r tr,
    run Sample.world_rejects_login []
        (_test_email_connection_helper Sample.py0 Sample.env_configured
                                       (lit "Gmail")) = (Done r, tr)
    /\ test_message r
       = lit "Connection failed: (535, b'5.7.8 Username and Password not accepted')"
    /\ test_provider r = lit "Gmail"
    /\ ((tr = [] /\ r = not_configured_test (lit "Gmail"))
        \/ exists e,
            r = mkTestResult false (lit "Connection failed: " ++ exn_text e)
                             (lit "Gmail") None None None
            /\ (tr = [] \/ option_map raised (last_event tr) = Some (Some e))).
Proof.
  eexists. eexists. split; [vm_compute; reflexivity |].
  split; [reflexivity |]. split; [reflexivity |].
  apply (test_failure_names_the_exception
           Sample.py0 Sample.env_configured Sample.world_rejects_login
           (lit "Gmail")); [vm_compute; reflexivity | reflexivity].
Defined.

(** ** The order of the calls of a read *)

Lemma stops_cons (e : event) (r : list event) :
  returned e = true -> stops_at_first_error r = true ->
  stops_at_first_error (e :: r) = true.
Proof.
  intros He Hr. cbn [stops_at_first_error]. destruct r; [reflexivity |].
  now rewrite He, Hr.
Qed.

Lemma stops_app (a b : list event) :
  forallb returned a = true -> stops_at_first_error b = true ->
  stops_at_first_error (a ++ b) = true.
Proof.
  induction a as [| e a IH]; intros Ha Hb; [exact Hb |].
  cbn [forallb] in Ha. apply andb_true_iff in Ha as [He Ha].
  cbn [app]. apply stops_cons; auto.
Qed.

Lemma all_returned_stops (a : list event) :
  forallb returned a = true -> stops_at_first_error a = true.
Proof.
  intros H. rewrite <- (app_nil_r a). now apply stops_app.
Qed.

Lemma fetch_loop_kinds (py : Builtins) (w : world) (config : EmailConfig) :
  forall (ids : list bytes) (emails : list email_info) (past : list event)
         (o : outcome (list email_info)) (tr : list event),
    run w past (fetch_loop py config ids emails) = (o, tr) ->
    exists new,
      tr = past ++ new
      /\ map kind_of new = repeat ImapFetch (List.length new)
      /\ stops_at_first_error new = true
      /\ (List.length new <= List.length ids)%nat
      /\ match o with
         | Done _ =>
             forallb returned new = true
             /\ List.length new = List.length ids
         | Failed e =>
             new <> []
             /\ (option_map raised (last_event new) = Some (Some e)
                 \/ option_map returned (last_event new) = Some true)
         end.
Proof.
  induction ids as [| email_id rest IH]; intros emails past o tr H.
  - cbn [fetch_loop run] in H. inversion H; subst.
    exists []. rewrite app_nil_r. repeat split; auto.
  - cbn [fetch_loop] in H. run_steps H.
    destruct (w _ past (IMAP_fetch email_id (lit "(RFC822)")))
      as [[result message_data] | e]; run_steps H.
    + assert (Hnext :
                forall emails',
                  run w (past ++ [Ev (IMAP_fetch email_id (lit "(RFC822)"))
                                     (Returned (result, message_data))])
                      (fetch_loop py config rest emails') = (o, tr) ->
                  exists new,
                    tr = past ++ new
                    /\ map kind_of new = repeat ImapFetch (List.length new)
                    /\ stops_at_first_error new = true
                    /\ (List.length new <= S (List.length rest))%nat
                    /\ match o with
                       | Done _ =>
                           forallb returned new = true
                           /\ List.length new = S (List.length rest)
                       | Failed e =>
                           new <> []
                           /\ (option_map raised (last_event new)
                               = Some (Some e)
                               \/ option_map returned (last_event new)
                                  = Some true)
                       end).
      { intros emails' H'. apply IH in H'.
        destruct H' as (new & -> & Hk & Hs & Hl & Ho).
        eexists. split; [rewrite <- app_assoc; reflexivity |]. cbn [app].
        split; [cbn [map kind_of List.length repeat]; now rewrite Hk |].
        split; [now apply stops_cons |].
        split; [cbn [List.length]; lia |].
        destruct o as [es | e'].
        - destruct Ho as [Hr Hn]. cbn [forallb returned List.length].
          now rewrite Hr, Hn.
        - destruct Ho as [Hne Hlast]. split; [discriminate |].
          unfold last_event in *. cbn [rev].
          destruct (rev new) as [| x xs] eqn:Erev.
          + apply (f_equal (@rev event)) in Erev.
            rewrite rev_involutive in Erev. contradiction.
          + exact Hlast. }
      destruct (str_eqb result (lit "OK")); run_steps H; [| eauto].
      destruct (summarize py config email_id message_data) as [e | info];
        run_steps H; [| eauto].
      inversion H; subst. eexists. split; [reflexivity |].
      repeat split; try reflexivity; try (cbn; lia); try discriminate.
      now right.
    + inversion H; subst. eexists. split; [reflexivity |].
      repeat split; try reflexivity; try (cbn; lia); try discriminate.
      now left.
Qed.

(** Events of fetches are seen by no other observer. *)
Lemma fetch_events_only (new : list event) :
  map kind_of new = repeat ImapFetch (List.length new) ->
  List.length (fetches new) = List.length new
  /\ transmissions new = []
  /\ selections new = []
  /\ criteria new = []
  /\ searches new = []
  /\ connections new = []
  /\ logins new = [].
Proof.
  induction new as [| [X c r] new IH]; intros Hk; [now repeat split |].
  cbn [map List.length repeat] in Hk. injection Hk as Hc Hrest.
  destruct (IH Hrest) as (Hf & Ht & Hs & Hcr & Hse & Hco & Hl).
  destruct c; cbn [kind_of] in Hc; try discriminate Hc.
  rewrite fetches_cons. cbn [List.length]. rewrite Hf.
  unfold transmissions, selections, criteria, searches, connections,
    logins in *.
  cbn [collect transmission select_of criterion_of search_of connection
               login_of].
  now repeat split.
Qed.

Lemma length_slice_from_neg (A : Type) (l : list A) (n : Z) :
  1 <= n -> (List.length (slice_from l (- n)) <= Z.to_nat n)%nat.
Proof.
  intros Hn. rewrite slice_from_neg_lastn by exact Hn.
  unfold lastn. rewrite length_skipn. lia.
Qed.

Lemma script_needs_logout (n : nat) :
  [ImapConnect; ImapLogin; ImapSelect; ImapSearch] ++ repeat ImapFetch n
  <> read_script n.
Proof.
  unfold read_script. intros H. apply (f_equal (@List.length kind)) in H.
  rewrite !length_app in H. cbn [List.length] in H. lia.
Qed.

Ltac observe :=
  unfold transmissions, selections, criteria, searches, fetches,
    fetched_ok, connections, logins in *;
  repeat (progress
            (cbn [collect transmission select_of criterion_of search_of
                          fetch_of connection login_of map List.length
                          kind_of forallb returned filter snd fst];
             rewrite ?collect_app, ?map_app, ?length_app, ?forallb_app,
               ?filter_app, ?app_nil_r)).

Ltac stopped_read H :=
  exists 0%nat; inversion H; subst; repeat split;
  solve [ reflexivity | discriminate | now eexists | now left | now right
        | intros; lia
        | intros Hbad; cbv in Hbad; discriminate Hbad
        | right; now left
        | right; right; now repeat split ].

Lemma read_body_in_order
      (py : Builtins) (env : environ) (w : world)
      (folder : str) (limit : Z) (unread_only : bool) (name : str)
      (o : outcome read_result) (tr : list event) :
  run w [] (read_body py env folder limit unread_only name) = (o, tr) ->
  exists n,
    List.length (fetches tr) = n
    /\ (1 <= limit -> (n <= Z.to_nat limit)%nat)
    /\ prefix_of (map kind_of tr) (read_script n)
    /\ stops_at_first_error tr = true
    /\ transmissions tr = []
    /\ (selections tr = [] \/ selections tr = [folder])
    /\ (criteria tr = []
        \/ criteria tr = [if unread_only then lit "UNSEEN" else lit "ALL"])
    /\ (n = 0%nat \/ exists ids, searches tr = [(lit "OK", ids)])
    /\ match o with
       | Done r =>
           (read_success r = true
            /\ map kind_of tr = read_script n
            /\ forallb returned tr = true
            /\ read_count r = Some (Z.of_nat (List.length (read_emails r)))
            /\ List.length (read_emails r) = List.length (fetched_ok tr)
            /\ read_message r
               = lit "Retrieved "
                 ++ str_of_Z (Z.of_nat (List.length (read_emails r)))
                 ++ lit " emails from " ++ folder)
           \/ (r = not_configured_read /\ tr = [])
           \/ (r = mkReadResult false (lit "Failed to search emails") None []
               /\ map kind_of tr
                  = [ImapConnect; ImapLogin; ImapSelect; ImapSearch]
               /\ forallb returned tr = true)
       | Failed e =>
           map kind_of tr = read_script n -> forallb returned tr = false
       end.
Proof.
  intros H. unfold read_body in H. run_steps H.
  destruct (EmailConfig_init py env name) as [e | config] eqn:E;
    [stopped_read H |].
  destruct (built_config_resolves _ _ _ _ E) as (s & i & Hs & Hi).
  rewrite Hi in H. clear E Hs Hi. run_steps H.
  destruct (negb (validate_credentials config)); [stopped_read H |].
  run_steps H.
  answer H; [| stopped_read H].
  answer H; [| stopped_read H].
  answer H; [| stopped_read H].
  match type of H with
  | context [w ?X ?p (IMAP_search ?c)] =>
      destruct (w X p (IMAP_search c)) as [[result message_ids] | e]
  end; run_steps H; [| stopped_read H].
  destruct (str_eqb result (lit "OK")) eqn:Eok; cbn [negb] in H;
    run_steps H; [| stopped_read H].
  apply str_eqb_eq in Eok. subst result.
  destruct (first_split message_ids) as [e | email_ids]; run_steps H;
    [stopped_read H |].
  match type of H with
  | context [run w ?p (fetch_loop ?a ?b ?c ?d)] =>
      destruct (run w p (fetch_loop a b c d)) as [o1 tr1] eqn:L
  end.
  pose proof (fetch_loop_run _ _ _ _ _ _ _ _ L) as (new' & Hnew' & _ & Hrun).
  apply fetch_loop_kinds in L.
  destruct L as (new & -> & Hk & Hst & Hlen & Ho).
  apply app_inv_head in Hnew'. subst new'.
  destruct (fetch_events_only new Hk)
    as (Hf & Ht & Hsel & Hcr & Hse & Hco & Hlo).
  rewrite length_rev in Hlen.
  assert (Hbound : 1 <= limit -> (List.length new <= Z.to_nat limit)%nat).
  { intros Hl. pose proof (length_slice_from_neg _ email_ids limit Hl). lia. }
  exists (List.length new).
  destruct o1 as [es | e]; run_steps H.
  - destruct Ho as [Hret Hall].
    destruct Hrun as (_ & added & -> & Hall2).
    apply Forall2_length in Hall2.
    answer H; injection H as <- <-; observe;
      rewrite ?Hk, ?Ht, ?Hsel, ?Hcr, ?Hse, ?Hret;
      (split; [rewrite Hf; lia |]); (split; [exact Hbound |]);
      (split; [exists []; rewrite app_nil_r; reflexivity |]);
      (split; [repeat (apply stops_cons; [reflexivity |]);
               apply stops_app; [exact Hret | reflexivity] |]);
      (split; [reflexivity |]); (split; [now right |]);
      (split; [now right |]); (split; [right; now eexists |]).
    + left. cbn [read_success read_count read_emails read_message app].
      repeat split. lia.
    + intros _. cbn [andb]. first [reflexivity | apply andb_false_r].
  - injection H as <- <-. observe.
    rewrite ?Hk, ?Ht, ?Hsel, ?Hcr, ?Hse.
    split; [exact Hf |]. split; [exact Hbound |].
    split; [now exists [ImapLogout] |].
    split; [repeat (apply stops_cons; [reflexivity |]); exact Hst |].
    split; [reflexivity |]. split; [now right |]. split; [now right |].
    split; [right; now eexists |].
    intros Hbad. exfalso. exact (script_needs_logout _ Hbad).
Qed.



Lemma run_read_handlers (w : world) (past : list event) (e : exn) :
  exists r,
    run w past (read_handlers e) = (Done r, past)
    /\ read_success r = false.
Proof.
  unfold read_handlers. destruct (is_IMAP4_error e); eexists; split;
    reflexivity.
Qed.

(** X5.  A read of at most [limit >= 1] messages connects, logs in, selects,
    searches, fetches, and logs out, in that order and each call only after
    all the calls before it returned.  It fetches at most [limit] messages
    and none unless the search answered ['OK'], it never sends anything, and
    it succeeds exactly when it went through the whole sequence, logout
    included, with every call returning. *)
Theorem read_calls_in_order
        (py : Builtins) (env : environ) (w : world)
        (folder : str) (limit : Z) (unread_only : bool) (name : str)
        (r : read_result) (tr : list event) :
  1 <= limit ->
  run w [] (_read_emails_helper py env folder limit unread_only name)
  = (Done r, tr) ->
  let n := List.length (fetches tr) in
  (n <= Z.to_nat limit)%nat
  /\ prefix_of (map kind_of tr) (read_script n)
  /\ stops_at_first_error tr = true
  /\ transmissions tr = []
  /\ (n = 0%nat \/ exists ids, searches tr = [(lit "OK", ids)])
  /\ (read_success r = true <->
      map kind_of tr = read_script n /\ forallb returned tr = true).
Proof.
  intros Hlimit H. unfold _read_emails_helper in H.
  rewrite run_try_except in H.
  destruct (run w [] (read_body py env folder limit unread_only name))
    as [o tr0] eqn:Hb.
  apply read_body_in_order in Hb.
  destruct Hb as (n & Hn & Hle & Hp & Hs & Ht & _ & _ & Hse & Ho).
  assert (tr = tr0) as ->.
  { destruct o as [a | e]; [now inversion H |].
    destruct (run_read_handlers w tr0 e) as (r' & Hr' & _).
    rewrite Hr' in H. now inversion H. }
  cbv zeta. rewrite Hn.
  split; [auto |]. split; [exact Hp |]. split; [exact Hs |].
  split; [exact Ht |]. split; [exact Hse |].
  destruct o as [a | e].
  - inversion H; subst a.
    destruct Ho as [(Hok & Hk & Hr & _) | [[-> ->] | (-> & Hk & Hr)]].
    + rewrite Hok. now split.
    + split; [discriminate |]. intros [Hk _]. cbn in Hn. subst n.
      discriminate Hk.
    + split; [discriminate |]. intros [Hk' _]. rewrite Hk in Hk'.
      exfalso. apply (script_needs_logout 0).
      destruct n; [exact Hk' | discriminate Hk'].
  - destruct (run_read_handlers w tr0 e) as (r' & Hr' & Hfail).
    rewrite Hr' in H. inversion H; subst r'. rewrite Hfail.
    split; [discriminate |]. intros [Hk Hr]. rewrite (Ho Hk) in Hr.
    discriminate.
Qed.

Lemma read_calls_in_order_witness :
  exists r tr,
    run Sample.world_message_gone []
        (_read_emails_helper Sample.py0 Sample.env_configured (lit "INBOX") 3
                             false (lit "gmail")) = (Done r, tr)
    /\ map kind_of tr
       = [ImapConnect; ImapLogin; ImapSelect; ImapSearch; ImapFetch;
          ImapFetch]
    /\ (List.length (fetches tr) <= Z.to_nat 3)%nat
    /\ prefix_of (map kind_of tr) (read_script (List.length (fetches tr)))
    /\ stops_at_first_error tr = true
    /\ transmissions tr = []
    /\ (List.length (fetches tr) = 0%nat
        \/ exists ids, searches tr = [(lit "OK", ids)])
    /\ (read_success r = true <->
        map kind_of tr = read_script (List.length (fetches tr))
        /\ forallb returned tr = true).
Proof.
  eexists. eexists. split; [vm_compute; reflexivity |].
  split; [reflexivity |].
  apply (read_calls_in_order Sample.py0 Sample.env_configured
           Sample.world_message_gone (lit "INBOX") 3 false (lit "gmail"));
    [lia | vm_compute; reflexivity].
Defined.

(** X6.  On a successful read the count is the number of summaries, which is
    the number of fetches that answered ['OK'] and at most [limit]; the
    message names that number and the folder.  A fetch that does not answer
    ['OK'] only makes the list shorter. *)
Theorem read_count_is_number_of_ok_fetches
        (py : Builtins) (env : environ) (w : world)
        (folder : str) (limit : Z) (unread_only : bool) (name : str)
        (r : read_result) (tr : list event) :
  1 <= limit ->
  run w [] (_read_emails_helper py env folder limit unread_only name)
  = (Done r, tr) ->
  read_success r = true ->
  read_count r = Some (Z.of_nat (List.length (read_emails r)))
  /\ List.length (read_emails r) = List.length (fetched_ok tr)
  /\ (List.length (fetched_ok tr) <= List.length (fetches tr))%nat
  /\ (List.length (fetches tr) <= Z.to_nat limit)%nat
  /\ read_message r
     = lit "Retrieved " ++ str_of_Z (Z.of_nat (List.length (read_emails r)))
       ++ lit " emails from " ++ folder.
Proof.
  intros Hlimit H Hok. unfold _read_emails_helper in H.
  rewrite run_try_except in H.
  destruct (run w [] (read_body py env folder limit unread_only name))
    as [o tr0] eqn:Hb.
  apply read_body_in_order in Hb.
  destruct Hb as (n & Hn & Hle & _ & _ & _ & _ & _ & _ & Ho).
  destruct o as [a | e].
  - inversion H; subst.
    destruct Ho as [(_ & _ & _ & Hc & Hl & Hm) | [[-> ->] | (-> & _)]];
      try discriminate Hok.
    split; [exact Hc |]. split; [exact Hl |].
    split; [| split; [auto | exact Hm]].
    unfold fetched_ok, fetches. rewrite !length_map. apply filter_length_le.
  - destruct (run_read_handlers w tr0 e) as (r' & Hr' & Hfail).
    rewrite Hr' in H. inversion H; subst. congruence.
Qed.

(** A mailbox whose message 4 answers ['NO']: the read succeeds with the
    summaries of 5 and 3. *)
Lemma read_count_is_number_of_ok_fetches_witness :
  exists r tr,
    run world_fetch_refused []
        (_read_emails_helper Sample.py0 Sample.env_configured (lit "INBOX") 3
                             false (lit "gmail")) = (Done r, tr)
    /\ map info_id (read_emails r) = [lit "5"; lit "3"]
    /\ read_count r = Some 2
    /\ read_message r = lit "Retrieved 2 emails from INBOX"
    /\ List.length (fetches tr) = 3%nat.
Proof.
  eexists. eexists. split; [vm_compute; reflexivity |].
  split; [reflexivity |].
  destruct (read_count_is_number_of_ok_fetches
              Sample.py0 Sample.env_configured world_fetch_refused
              (lit "INBOX") 3 false (lit "gmail") _ _ ltac:(lia) eq_refl
              eq_refl)
    as (Hc & _ & _ & _ & Hm).
  split; [exact Hc |]. split; [exact Hm | reflexivity].
Defined.

(** ** The tools and their helpers *)

(** A run after some events is a run from the start in the world as it is
    after them. *)
Lemma run_after (A : Type) (w : world) (past0 : list event) (m : Prog A) :
  forall past,
    run w (past0 ++ past) m
    = (fst (run (after w past0) past m),
       past0 ++ snd (run (after w past0) past m)).
Proof.
  induction m as [a | e | X c k IH]; intros past; cbn [run fst snd];
    try reflexivity.
  unfold after at 1 3. rewrite <- app_assoc. apply IH.
Qed.

(** What each tool does with the result of its helper makes no call, so
    the events of a tool are those of its helper. *)
Lemma send_email_trace
      (py : Builtins) (env : environ) (w : world)
      (to_email subject body : str) (cc_email : option str) :
  snd (run w [] (send_email py env to_email subject body cc_email))
  = snd (run w [] (_send_email_helper py env to_email subject body cc_email
                                      None false (lit "gmail"))).
Proof.
  unfold send_email. rewrite run_try_except, run_bind.
  destruct (never_raises_run _ w _
              (send_helper_never_raises py env to_email subject body cc_email
                 None false (lit "gmail")) [])
    as (r & tr & Hr).
  rewrite Hr. cbn [snd].
  destruct (send_success r); [| reflexivity].
  destruct (send_timestamp r); reflexivity.
Qed.

Lemma read_recent_emails_trace
      (py : Builtins) (env : environ) (w : world) (limit : Z)
      (unread_only : str) :
  snd (run w [] (read_recent_emails py env limit unread_only))
  = snd (run w []
           (_read_emails_helper py env (lit "INBOX") (email_limit limit)
              (str_eqb (str_lower py unread_only) (lit "true"))
              (lit "gmail"))).
Proof.
  unfold read_recent_emails. cbv zeta. rewrite run_try_except, run_bind.
  destruct (never_raises_run _ w _
              (read_helper_never_raises py env (lit "INBOX")
                 (email_limit limit)
                 (str_eqb (str_lower py unread_only) (lit "true"))
                 (lit "gmail")) [])
    as (r & tr & Hr).
  rewrite Hr. cbn [snd].
  destruct (read_success r); [| reflexivity].
  destruct (read_count r) as [count |]; [| reflexivity].
  cbn [key lift bind]. destruct (0 <? count); reflexivity.
Qed.

Lemma test_email_connection_trace
      (py : Builtins) (env : environ) (w : world) :
  snd (run w [] (test_email_connection py env))
  = snd (run w [] (_test_email_connection_helper py env (lit "gmail"))).
Proof.
  unfold test_email_connection. rewrite run_try_except, run_bind.
  destruct (never_raises_run _ w _
              (test_helper_never_raises py env (lit "gmail")) [])
    as (r & tr & Hr).
  rewrite Hr. cbn [snd].
  destruct (test_success r); [| reflexivity].
  destruct (test_email r); [| reflexivity].
  destruct (test_smtp_server r); [| reflexivity].
  destruct (test_imap_server r); reflexivity.
Qed.

(** The notification reads the clock first; when the clock answers [t] the
    rest is a send of the composed text. *)
Lemma send_quick_notification_trace
      (py : Builtins) (env : environ) (w : world) (recipient message : str) :
  let clock := Now_strftime (lit "%Y-%m-%d %H:%M:%S") in
  match w _ [] clock with
  | Raised e =>
      snd (run w [] (send_quick_notification py env recipient message))
      = [Ev clock (Raised e)]
  | Returned t =>
      snd (run w [] (send_quick_notification py env recipient message))
      = Ev clock (Returned t)
        :: snd (run (after w [Ev clock (Returned t)]) []
                  (_send_email_helper py env recipient
                     (lit "Notification - " ++ t)
                     (strip (notification_body t message))
                     None None false (lit "gmail")))
  end.
Proof.
  cbv zeta. unfold send_quick_notification.
  rewrite run_try_except, run_bind, run_perform.
  destruct (w str [] (Now_strftime (lit "%Y-%m-%d %H:%M:%S"))) as [t | e];
    [| reflexivity].
  cbv zeta beta iota. rewrite run_bind.
  change ([] ++ [Ev (Now_strftime (lit "%Y-%m-%d %H:%M:%S")) (Returned t)])
    with ([Ev (Now_strftime (lit "%Y-%m-%d %H:%M:%S")) (Returned t)] ++ []).
  rewrite run_after.
  destruct (never_raises_run
              _ (after w [Ev (Now_strftime (lit "%Y-%m-%d %H:%M:%S"))
                             (Returned t)]) _
              (send_helper_never_raises py env recipient
                 (lit "Notification - " ++ t)
                 (strip (notification_body t message))
                 None None false (lit "gmail")) [])
    as (r & tr & Hr).
  rewrite Hr. cbn [fst snd app].
  destruct (send_success r); reflexivity.
Qed.

(** ** Where the operations connect *)

Lemma try_except_trace (A : Type) (w : world) (m : Prog A)
      (h : exn -> Prog A) :
  (forall e past, snd (run w past (h e)) = past) ->
  forall past,
    snd (run w past (try_except m h)) = snd (run w past m).
Proof.
  intros Hh past. rewrite run_try_except.
  destruct (run w past m) as [[a | e] tr]; [reflexivity | apply Hh].
Qed.

Lemma send_helper_trace
      (py : Builtins) (env : environ) (w : world)
      (to_email subject body : str) (cc_email bcc_email : option str)
      (is_html : bool) (name : str) :
  snd (run w [] (_send_email_helper py env to_email subject body cc_email
                                    bcc_email is_html name))
  = snd (run w [] (send_body py env to_email subject body cc_email bcc_email
                             is_html name)).
Proof.
  apply try_except_trace. intros e past.
  now rewrite run_send_handlers_message.
Qed.

Lemma read_helper_trace
      (py : Builtins) (env : environ) (w : world)
      (folder : str) (limit : Z) (unread_only : bool) (name : str) :
  snd (run w [] (_read_emails_helper py env folder limit unread_only name))
  = snd (run w [] (read_body py env folder limit unread_only name)).
Proof.
  apply try_except_trace. intros e past.
  destruct (run_read_handlers w past e) as (r & Hr & _). now rewrite Hr.
Qed.

Lemma test_helper_trace
      (py : Builtins) (env : environ) (w : world) (name : str) :
  snd (run w [] (_test_email_connection_helper py env name))
  = snd (run w [] (test_body py env name)).
Proof.
  apply try_except_trace. reflexivity.
Qed.

Ltac endpoints H :=
  injection H as <- <-; observe;
  solve [ now left
        | right; repeat split; solve [reflexivity | now left | now right] ].

Lemma send_body_endpoints
      (py : Builtins) (env : environ) (w : world)
      (to_email subject body : str) (cc_email bcc_email : option str)
      (is_html : bool) (name : str) (o : outcome send_result)
      (tr : list event) (config : EmailConfig) (s i : server_config) :
  EmailConfig_init py env name = inr config ->
  get_smtp_config config = inr s ->
  run w [] (send_body py env to_email subject body cc_email bcc_email is_html
                      name) = (o, tr) ->
  (connections tr = [] /\ logins tr = [])
  \/ (validate_credentials config = true
      /\ connections tr = [(SmtpConnect, server s, port s)]
      /\ (logins tr = []
          \/ logins tr = [(email_address config, email_password config)])).
Proof.
  intros E Hs H. unfold send_body in H. rewrite E in H. run_steps H.
  destruct (validate_credentials config); cbn [negb] in H; run_steps H;
    [| endpoints H].
  destruct (compose (email_address config) to_email subject body cc_email
                    is_html) as [e | msg]; run_steps H; [endpoints H |].
  rewrite Hs in H. run_steps H.
  answer H; [| endpoints H].
  answer H; [| endpoints H].
  answer H; [| endpoints H].
  destruct (as_string py msg) as [e | u]; run_steps H; [endpoints H |].
  answer H; [| endpoints H].
  answer H; [| endpoints H].
  answer H; endpoints H.
Qed.

Lemma test_body_endpoints
      (py : Builtins) (env : environ) (w : world) (name : str)
      (o : outcome test_result) (tr : list event) (config : EmailConfig)
      (s i : server_config) :
  EmailConfig_init py env name = inr config ->
  get_smtp_config config = inr s ->
  get_imap_config config = inr i ->
  run w [] (test_body py env name) = (o, tr) ->
  (connections tr = [] /\ logins tr = [])
  \/ (validate_credentials config = true
      /\ prefix_of (connections tr)
           [(SmtpConnect, server s, port s); (ImapConnect, server i, port i)]
      /\ prefix_of (logins tr)
           [(email_address config, email_password config);
            (email_address config, email_password config)]).
Proof.
  intros E Hs Hi H. unfold test_body in H. rewrite E in H. run_steps H.
  destruct (validate_credentials config); cbn [negb] in H; run_steps H;
    [| injection H as <- <-; now left].
  rewrite Hs, Hi in H. run_steps H.
  repeat (answer H;
          [| injection H as <- <-; observe; right;
             repeat split; now eexists]).
  injection H as <- <-. observe. right. repeat split; now exists [].
Qed.

Lemma read_body_endpoints
      (py : Builtins) (env : environ) (w : world)
      (folder : str) (limit : Z) (unread_only : bool) (name : str)
      (o : outcome read_result) (tr : list event) (config : EmailConfig)
      (i : server_config) :
  EmailConfig_init py env name = inr config ->
  get_imap_config config = inr i ->
  run w [] (read_body py env folder limit unread_only name) = (o, tr) ->
  (connections tr = [] /\ logins tr = [])
  \/ (validate_credentials config = true
      /\ connections tr = [(ImapConnect, server i, port i)]
      /\ (logins tr = []
          \/ logins tr = [(email_address config, email_password config)])).
Proof.
  intros E Hi H. unfold read_body in H. rewrite E in H. run_steps H.
  destruct (validate_credentials config); cbn [negb] in H; run_steps H;
    [| endpoints H].
  rewrite Hi in H. run_steps H.
  answer H; [| endpoints H].
  answer H; [| endpoints H].
  answer H; [| endpoints H].
  match type of H with
  | context [w ?X ?p (IMAP_search ?c)] =>
      destruct (w X p (IMAP_search c)) as [[result message_ids] | e]
  end; run_steps H; [| endpoints H].
  destruct (negb (str_eqb result (lit "OK"))); run_steps H; [endpoints H |].
  destruct (first_split message_ids) as [e | email_ids]; run_steps H;
    [endpoints H |].
  match type of H with
  | context [run w ?p (fetch_loop ?a ?b ?c ?d)] =>
      destruct (run w p (fetch_loop a b c d)) as [o1 tr1] eqn:L
  end.
  apply fetch_loop_kinds in L. destruct L as (new & -> & Hk & _).
  destruct (fetch_events_only new Hk) as (_ & _ & _ & _ & _ & Hco & Hlo).
  destruct o1 as [es | e]; run_steps H.
  - answer H; injection H as <- <-; observe; rewrite Hco, Hlo;
      right; repeat split; now right.
  - injection H as <- <-. observe. rewrite Hco, Hlo.
    right. repeat split. now right.
Qed.

Lemma no_config_no_call_send
      (py : Builtins) (env : environ) (w : world)
      (to_email subject body : str) (cc_email bcc_email : option str)
      (is_html : bool) (name : str) (e : exn) :
  EmailConfig_init py env name = inl e ->
  snd (run w [] (send_body py env to_email subject body cc_email bcc_email
                           is_html name)) = [].
Proof. intros E. unfold send_body. now rewrite E. Qed.

Lemma no_config_no_call_read
      (py : Builtins) (env : environ) (w : world)
      (folder : str) (limit : Z) (unread_only : bool) (name : str)
      (e : exn) :
  EmailConfig_init py env name = inl e ->
  snd (run w [] (read_body py env folder limit unread_only name)) = [].
Proof. intros E. unfold read_body. now rewrite E. Qed.

Lemma no_config_no_call_test
      (py : Builtins) (env : environ) (w : world) (name : str) (e : exn) :
  EmailConfig_init py env name = inl e ->
  snd (run w [] (test_body py env name)) = [].
Proof. intros E. unfold test_body. now rewrite E. Qed.

Lemma prefix_Forall (A : Type) (P : A -> Prop) (l script : list A) :
  prefix_of l script -> Forall P script -> Forall P l.
Proof.
  intros [rest ->] H. apply Forall_app in H. tauto.
Qed.

Lemma send_connections
      (py : Builtins) (env : environ) (w : world) (name : str)
      (config : EmailConfig) (smtp : server_config)
      (to_email subject body : str) (cc_email bcc_email : option str)
      (is_html : bool) :
  EmailConfig_init py env name = inr config ->
  get_smtp_config config = inr smtp ->
  let tr := snd (run w [] (_send_email_helper py env to_email subject body
                             cc_email bcc_email is_html name)) in
  Forall (fun c => c = (SmtpConnect, server smtp, port smtp))
         (connections tr)
  /\ logs_in_as (env (lit "EMAIL_ADDRESS")) (env (lit "EMAIL_PASSWORD")) tr
  /\ (connections tr <> [] ->
      truthy (env (lit "EMAIL_ADDRESS"))
      && truthy (env (lit "EMAIL_PASSWORD")) = true).
Proof.
  intros E Hs tr.
  destruct (EmailConfig_init_credentials _ _ _ _ E) as [Ha Hp].
  assert (Hv : validate_credentials config
               = truthy (env (lit "EMAIL_ADDRESS"))
                 && truthy (env (lit "EMAIL_PASSWORD"))).
  { unfold validate_credentials. now rewrite Ha, Hp. }
  subst tr. rewrite send_helper_trace.
  destruct (run w [] (send_body py env to_email subject body cc_email
                                bcc_email is_html name)) as [o tr] eqn:Hb.
  cbn [snd].
  destruct (send_body_endpoints _ _ _ _ _ _ _ _ _ _ _ _ _ _ smtp E Hs Hb)
    as [[Hc Hl] | (Hval & Hc & Hl)]; unfold logs_in_as; rewrite Hc.
  - rewrite Hl. repeat split; auto.
  - rewrite <- Hv, Hval, <- Ha, <- Hp.
    repeat split; auto.
    destruct Hl as [-> | ->]; auto.
Qed.

Lemma read_connections
      (py : Builtins) (env : environ) (w : world) (name : str)
      (config : EmailConfig) (imap : server_config)
      (folder : str) (limit : Z) (unread_only : bool) :
  EmailConfig_init py env name = inr config ->
  get_imap_config config = inr imap ->
  let tr := snd (run w [] (_read_emails_helper py env folder limit
                             unread_only name)) in
  Forall (fun c => c = (ImapConnect, server imap, port imap))
         (connections tr)
  /\ logs_in_as (env (lit "EMAIL_ADDRESS")) (env (lit "EMAIL_PASSWORD")) tr
  /\ (connections tr <> [] ->
      truthy (env (lit "EMAIL_ADDRESS"))
      && truthy (env (lit "EMAIL_PASSWORD")) = true).
Proof.
  intros E Hi tr.
  destruct (EmailConfig_init_credentials _ _ _ _ E) as [Ha Hp].
  assert (Hv : validate_credentials config
               = truthy (env (lit "EMAIL_ADDRESS"))
                 && truthy (env (lit "EMAIL_PASSWORD"))).
  { unfold validate_credentials. now rewrite Ha, Hp. }
  subst tr. rewrite read_helper_trace.
  destruct (run w [] (read_body py env folder limit unread_only name))
    as [o tr] eqn:Hb.
  cbn [snd].
  destruct (read_body_endpoints _ _ _ _ _ _ _ _ _ _ _ E Hi Hb)
    as [[Hc Hl] | (Hval & Hc & Hl)]; unfold logs_in_as; rewrite Hc.
  - rewrite Hl. repeat split; auto.
  - rewrite <- Hv, Hval, <- Ha, <- Hp.
    repeat split; auto.
    destruct Hl as [-> | ->]; auto.
Qed.

Lemma test_connections
      (py : Builtins) (env : environ) (w : world) (name : str)
      (config : EmailConfig) (smtp imap : server_config) :
  EmailConfig_init py env name = inr config ->
  get_smtp_config config = inr smtp ->
  get_imap_config config = inr imap ->
  let tr := snd (run w [] (_test_email_connection_helper py env name)) in
  connects_to smtp imap tr
  /\ logs_in_as (env (lit "EMAIL_ADDRESS")) (env (lit "EMAIL_PASSWORD")) tr
  /\ (connections tr <> [] ->
      truthy (env (lit "EMAIL_ADDRESS"))
      && truthy (env (lit "EMAIL_PASSWORD")) = true).
Proof.
  intros E Hs Hi tr.
  destruct (EmailConfig_init_credentials _ _ _ _ E) as [Ha Hp].
  assert (Hv : validate_credentials config
               = truthy (env (lit "EMAIL_ADDRESS"))
                 && truthy (env (lit "EMAIL_PASSWORD"))).
  { unfold validate_credentials. now rewrite Ha, Hp. }
  subst tr. rewrite test_helper_trace.
  destruct (run w [] (test_body py env name)) as [o tr] eqn:Hb.
  cbn [snd].
  destruct (test_body_endpoints _ _ _ _ _ _ _ _ imap E Hs Hi Hb)
    as [[Hc Hl] | (Hval & Hc & Hl)];
    unfold logs_in_as, connects_to.
  - rewrite Hc, Hl. repeat split; auto.
  - rewrite <- Hv, Hval, <- Ha, <- Hp. repeat split; auto.
    + eapply prefix_Forall; [exact Hc |].
      constructor; [now left | constructor; [now right | constructor]].
    + eapply prefix_Forall; [exact Hl |]. repeat constructor.
Qed.

(** X7.  Each operation connects only to the host and port of the profile
    its provider name resolves to (SMTP for a send, IMAP for a read, both
    for a test), logs in only with [EMAIL_ADDRESS] and [EMAIL_PASSWORD],
    and makes a connection only when both are set and non-empty. *)
Theorem operations_use_the_resolved_profile
        (py : Builtins) (env : environ) (w : world) (name : str)
        (config : EmailConfig) (smtp imap : server_config) :
  EmailConfig_init py env name = inr config ->
  get_smtp_config config = inr smtp ->
  get_imap_config config = inr imap ->
  let user := env (lit "EMAIL_ADDRESS") in
  let password := env (lit "EMAIL_PASSWORD") in
  (forall to_email subject body cc_email bcc_email is_html,
      let tr := snd (run w [] (_send_email_helper py env to_email subject body
                                 cc_email bcc_email is_html name)) in
      Forall (fun c => c = (SmtpConnect, server smtp, port smtp))
             (connections tr)
      /\ logs_in_as user password tr
      /\ (connections tr <> [] -> truthy user && truthy password = true))
  /\ (forall folder limit unread_only,
         let tr := snd (run w [] (_read_emails_helper py env folder limit
                                    unread_only name)) in
         Forall (fun c => c = (ImapConnect, server imap, port imap))
                (connections tr)
         /\ logs_in_as user password tr
         /\ (connections tr <> [] -> truthy user && truthy password = true))
  /\ (let tr := snd (run w [] (_test_email_connection_helper py env name)) in
      connects_to smtp imap tr
      /\ logs_in_as user password tr
      /\ (connections tr <> [] -> truthy user && truthy password = true)).
Proof.
  intros E Hs Hi user password. split; [| split].
  - intros. now apply (send_connections py env w name config smtp).
  - intros. now apply (read_connections py env w name config imap).
  - now apply (test_connections py env w name config smtp imap).
Qed.

Lemma operations_use_the_resolved_profile_witness :
  connections
    (snd (run Sample.world_ok []
            (_test_email_connection_helper
               Sample.py0 Sample.env_configured (lit "Yahoo"))))
  = [(SmtpConnect, Some (lit "smtp.mail.yahoo.com"), 587);
     (ImapConnect, Some (lit "imap.mail.yahoo.com"), 993)]
  /\ connects_to (mkServer (Some (lit "smtp.mail.yahoo.com")) 587)
                 (mkServer (Some (lit "imap.mail.yahoo.com")) 993)
       (snd (run Sample.world_ok []
               (_test_email_connection_helper
                  Sample.py0 Sample.env_configured (lit "Yahoo"))))
  /\ logs_in_as (Some (lit "me@example.org")) (Some (lit "secret"))
       (snd (run Sample.world_ok []
               (_test_email_connection_helper
                  Sample.py0 Sample.env_configured (lit "Yahoo")))).
Proof.
  split; [reflexivity |].
  destruct (operations_use_the_resolved_profile
              Sample.py0 Sample.env_configured Sample.world_ok (lit "Yahoo")
              _ (mkServer (Some (lit "smtp.mail.yahoo.com")) 587)
              (mkServer (Some (lit "imap.mail.yahoo.com")) 993)
              eq_refl eq_refl eq_refl)
    as (_ & _ & Ht).
  cbv zeta in Ht. destruct Ht as (Hc & Hl & _). split; [exact Hc | exact Hl].
Defined.

Lemma gmail_profile (py : Builtins) (env : environ) (config : EmailConfig) :
  str_lower py (lit "gmail") = lit "gmail" ->
  EmailConfig_init py env (lit "gmail") = inr config ->
  get_smtp_config config = inr gmail_smtp
  /\ get_imap_config config = inr gmail_imap.
Proof.
  intros Hl E.
  destruct (EmailConfig_init_provider _ _ _ _ E) as (Hp & Hs & Hi & _).
  unfold get_smtp_config, get_imap_config, get_or_gmail.
  now rewrite Hp, Hl, Hs, Hi.
Qed.

(** X8.  The four tools never pass a provider name, so when lower-casing
    leaves ["gmail"] as it is they use the gmail profile: every connection
    any of them makes goes to [smtp.gmail.com:587] or [imap.gmail.com:993],
    whatever [SMTP_SERVER], [SMTP_PORT], [IMAP_SERVER] and [IMAP_PORT]
    say. *)
Theorem tools_connect_to_gmail_only
        (py : Builtins) (env : environ) (w : world) :
  str_lower py (lit "gmail") = lit "gmail" ->
  (forall to_email subject body cc_email,
      connects_to gmail_smtp gmail_imap
        (snd (run w [] (send_email py env to_email subject body cc_email))))
  /\ (forall limit unread_only,
         connects_to gmail_smtp gmail_imap
           (snd (run w [] (read_recent_emails py env limit unread_only))))
  /\ connects_to gmail_smtp gmail_imap
       (snd (run w [] (test_email_connection py env)))
  /\ (forall recipient message,
         connects_to gmail_smtp gmail_imap
           (snd (run w [] (send_quick_notification py env recipient
                             message)))).
Proof.
  intros Hl.
  assert (Hsend :
            forall w' to_email subject body cc_email bcc_email is_html,
              connects_to gmail_smtp gmail_imap
                (snd (run w' [] (_send_email_helper py env to_email subject
                                   body cc_email bcc_email is_html
                                   (lit "gmail"))))).
  { intros. unfold connects_to.
    destruct (EmailConfig_init py env (lit "gmail")) as [e | config] eqn:E.
    - rewrite send_helper_trace,
        (no_config_no_call_send _ _ _ _ _ _ _ _ _ _ e E).
      constructor.
    - destruct (gmail_profile _ _ _ Hl E) as [Hs Hi].
      destruct (send_connections py env w' (lit "gmail") config gmail_smtp
                  to_email subject body cc_email bcc_email is_html E Hs)
        as (Hc & _).
      eapply Forall_impl; [| exact Hc]. intros c ->. now left. }
  split; [| split; [| split]].
  - intros. rewrite send_email_trace. apply Hsend.
  - intros. rewrite read_recent_emails_trace. unfold connects_to.
    destruct (EmailConfig_init py env (lit "gmail")) as [e | config] eqn:E.
    + rewrite read_helper_trace,
        (no_config_no_call_read _ _ _ _ _ _ _ e E).
      constructor.
    + destruct (gmail_profile _ _ _ Hl E) as [Hs Hi].
      destruct (read_connections py env w (lit "gmail") config gmail_imap
                  (lit "INBOX") (email_limit limit)
                  (str_eqb (str_lower py unread_only) (lit "true")) E Hi)
        as (Hc & _).
      eapply Forall_impl; [| exact Hc]. intros c ->. now right.
  - rewrite test_email_connection_trace.
    destruct (EmailConfig_init py env (lit "gmail")) as [e | config] eqn:E.
    + rewrite test_helper_trace, (no_config_no_call_test _ _ _ _ e E).
      constructor.
    + destruct (gmail_profile _ _ _ Hl E) as [Hs Hi].
      apply (test_connections py env w (lit "gmail") config gmail_smtp
               gmail_imap E Hs Hi).
  - intros.
    pose proof (send_quick_notification_trace py env w recipient message)
      as Ht.
    cbv zeta in Ht.
    destruct (w str [] (Now_strftime (lit "%Y-%m-%d %H:%M:%S"))) as [t | e];
      rewrite Ht; unfold connects_to, connections; cbn [collect connection].
    + apply Hsend.
    + constructor.
Qed.

Lemma tools_connect_to_gmail_only_witness :
  connections
    (snd (run Sample.world_ok []
            (test_email_connection Sample.py0 env_custom_server)))
  = [(SmtpConnect, Some (lit "smtp.gmail.com"), 587);
     (ImapConnect, Some (lit "imap.gmail.com"), 993)]
  /\ connects_to gmail_smtp gmail_imap
       (snd (run Sample.world_ok []
               (test_email_connection Sample.py0 env_custom_server))).
Proof.
  split; [reflexivity |].
  apply (tools_connect_to_gmail_only Sample.py0 env_custom_server
           Sample.world_ok eq_refl).
Defined.

(** X9.  Whatever limit and flag it is given and whatever the servers
    answer, [read_recent_emails] fetches at most 20 messages, selects no
    folder but INBOX, searches with [UNSEEN] when the flag is ["true"] in
    any letter case and with [ALL] otherwise, and sends nothing. *)
Theorem read_recent_emails_stays_in_bounds
        (py : Builtins) (env : environ) (w : world) (limit : Z)
        (unread_only : str) :
  let tr := snd (run w [] (read_recent_emails py env limit unread_only)) in
  (List.length (fetches tr) <= 20)%nat
  /\ (selections tr = [] \/ selections tr = [lit "INBOX"])
  /\ (criteria tr = []
      \/ criteria tr
         = [if str_eqb (str_lower py unread_only) (lit "true")
            then lit "UNSEEN" else lit "ALL"])
  /\ transmissions tr = [].
Proof.
  intros tr. subst tr. rewrite read_recent_emails_trace, read_helper_trace.
  destruct (run w []
              (read_body py env (lit "INBOX") (email_limit limit)
                 (str_eqb (str_lower py unread_only) (lit "true"))
                 (lit "gmail"))) as [o tr] eqn:Hb.
  cbn [snd]. apply read_body_in_order in Hb.
  destruct Hb as (n & Hn & Hle & _ & _ & Ht & Hsel & Hcr & _).
  pose proof (email_limit_range limit) as Hr.
  split; [| auto]. rewrite Hn. specialize (Hle ltac:(lia)). lia.
Qed.

(** ** A port that is not a number *)

Lemma bad_port_fails_the_constructor
      (py : Builtins) (env : environ) (text : str) (name : str) :
  port_error py env = Some text ->
  EmailConfig_init py env name = inl (ValueError text).
Proof.
  unfold port_error, EmailConfig_init, getenv_int, getenv.
  intros H.
  destruct (env (lit "SMTP_PORT")) as [t |].
  - destruct (int_of_str py t).
    + now inversion H.
    + destruct (env (lit "IMAP_PORT")) as [u |]; [| discriminate].
      destruct (int_of_str py u); [| discriminate]. now inversion H.
  - destruct (env (lit "IMAP_PORT")) as [u |]; [| discriminate].
    destruct (int_of_str py u); [| discriminate]. now inversion H.
Qed.

(** X10.  When [SMTP_PORT] or [IMAP_PORT] is set to a text that [int]
    rejects, every operation fails for every provider, gmail included and
    even with the credentials in place: it makes no call and reports the
    text of the [ValueError] that [int] raised for the port, whatever that
    text is, as an unexpected error for a send or a read and as a failed
    connection for a test. *)
Theorem malformed_port_fails_every_operation
        (py : Builtins) (env : environ) (w : world) (text : str) :
  port_error py env = Some text ->
  (forall to_email subject body cc_email bcc_email is_html name,
      run w [] (_send_email_helper py env to_email subject body cc_email
                                   bcc_email is_html name)
      = (Done (mkSendResult false (lit "Unexpected error: " ++ text) None),
         []))
  /\ (forall folder limit unread_only name,
         run w [] (_read_emails_helper py env folder limit unread_only name)
         = (Done (mkReadResult false (lit "Unexpected error: " ++ text)
                    None []),
            []))
  /\ (forall name,
         run w [] (_test_email_connection_helper py env name)
         = (Done (mkTestResult false (lit "Connection failed: " ++ text)
                    name None None None),
            [])).
Proof.
  intros H. repeat split; intros.
  - unfold _send_email_helper, send_body.
    now rewrite (bad_port_fails_the_constructor py env text name H).
  - unfold _read_emails_helper, read_body.
    now rewrite (bad_port_fails_the_constructor py env text name H).
  - unfold _test_email_connection_helper, test_body.
    now rewrite (bad_port_fails_the_constructor py env text name H).
Qed.

Lemma malformed_port_fails_every_operation_witness :
  port_error Sample.py0 env_bad_imap_port
  = Some (lit "invalid literal for int() with base 10: 'imaps'")
  /\ run Sample.world_ok []
         (_test_email_connection_helper Sample.py0 env_bad_imap_port
                                        (lit "gmail"))
     = (Done (mkTestResult false
                (lit "Connection failed: invalid literal for int() with base 10: 'imaps'")
                (lit "gmail") None None None),
        []).
Proof.
  split; [reflexivity |].
  destruct (malformed_port_fails_every_operation
              Sample.py0 env_bad_imap_port Sample.world_ok
              (lit "invalid literal for int() with base 10: 'imaps'")
              eq_refl)
    as (_ & _ & Ht).
  exact (Ht (lit "gmail")).
Defined.

(** ** Recipients and the Cc field *)

Lemma split_on_nonempty (sep : char) (s : str) : split_on sep s <> [].
Proof.
  destruct s as [| c r]; cbn [split_on]; [discriminate |].
  destruct (N.eqb c sep); [discriminate |].
  destruct (split_on sep r); discriminate.
Qed.

Lemma join_cons (sep x y : str) (l : list str) :
  join sep (x :: y :: l) = x ++ sep ++ join sep (y :: l).
Proof. reflexivity. Qed.

(** Joining the fields with the separator gives the text back. *)
Lemma join_split_on (sep : char) (s : str) :
  join [sep] (split_on sep s) = s.
Proof.
  induction s as [| c r IH]; [reflexivity |].
  cbn [split_on]. destruct (N.eqb_spec c sep) as [-> | Hne].
  - destruct (split_on sep r) as [| h t] eqn:E;
      [now apply split_on_nonempty in E |].
    rewrite join_cons, IH. reflexivity.
  - destruct (split_on sep r) as [| h t] eqn:E;
      [now apply split_on_nonempty in E |].
    destruct t as [| h' t'].
    + cbn [join] in *. now rewrite IH.
    + rewrite join_cons. rewrite join_cons in IH.
      rewrite <- IH. reflexivity.
Qed.

(** No field contains the separator. *)
Lemma split_on_fields (sep : char) (s : str) :
  Forall (fun f => ~ In sep f) (split_on sep s).
Proof.
  induction s as [| c r IH]; [repeat constructor; auto |].
  cbn [split_on]. destruct (N.eqb_spec c sep) as [-> | Hne].
  - constructor; auto.
  - destruct (split_on sep r) as [| h t]; [repeat constructor |].
    + intros [H | []]. now apply Hne.
    + inversion IH; subst. constructor; auto.
      intros [H | H]; [now apply Hne | contradiction].
Qed.

Lemma split_if_given_fields (x : option str) :
  Forall (fun f => ~ In comma f) (split_if_given x)
  /\ (truthy x = true ->
      split_if_given x <> []
      /\ Some (join [comma] (split_if_given x)) = x)
  /\ (truthy x = false -> split_if_given x = []).
Proof.
  destruct x as [[| c s] |]; cbn [split_if_given truthy].
  - repeat split; try constructor; discriminate.
  - split; [apply split_on_fields |]. split; [| discriminate].
    intros _. split; [apply split_on_nonempty |].
    now rewrite join_split_on.
  - repeat split; try constructor; discriminate.
Qed.

(** X11.  In whatever a send hands to [sendmail], the recipients after the
    first are the comma-separated fields of the CC and of the BCC: none of
    them contains a comma, and joined by commas the CC recipients are the
    value of the Cc field (and the BCC recipients the BCC text).  The first
    recipient is [to_email] as it was given, also where it holds commas,
    and it is the value of the To field. *)
Theorem cc_field_lists_the_cc_recipients
        (py : Builtins) (env : environ) (w : world)
        (to_email subject body : str) (cc_email bcc_email : option str)
        (is_html : bool) (name : str) (r : send_result) (tr : list event)
        (from_addr : option str) (to_addrs : list str) (msg : MIMEMultipart) :
  run w [] (_send_email_helper py env to_email subject body cc_email
                               bcc_email is_html name) = (Done r, tr) ->
  In (from_addr, to_addrs, msg) (transmissions tr) ->
  exists ccs bccs,
    to_addrs = to_email :: ccs ++ bccs
    /\ Forall (fun a => ~ In comma a) (ccs ++ bccs)
    /\ In (lit "To", Some to_email) (mime_headers msg)
    /\ (if truthy cc_email
        then ccs <> []
             /\ In (lit "Cc", Some (join [comma] ccs)) (mime_headers msg)
        else ccs = [] /\ ~ In (lit "Cc") (map fst (mime_headers msg)))
    /\ (if truthy bcc_email
        then bccs <> [] /\ Some (join [comma] bccs) = bcc_email
        else bccs = []).
Proof.
  intros H Hin.
  assert (Hsent :
            to_addrs = recipient_list to_email cc_email bcc_email
            /\ compose (env (lit "EMAIL_ADDRESS")) to_email subject body
                       cc_email is_html = inr msg).
  { unfold _send_email_helper in H. rewrite run_try_except in H.
    destruct (run w [] (send_body py env to_email subject body cc_email
                                  bcc_email is_html name))
      as [o tr0] eqn:Hb.
    apply send_body_transmits in Hb.
    destruct Hb as [Hcases _].
    assert (tr = tr0) as ->.
    { destruct o as [a | e]; [now inversion H |].
      rewrite run_send_handlers_message in H. now inversion H. }
    destruct Hcases as [E | (m & C & E)]; rewrite E in Hin; [contradiction |].
    destruct Hin as [Hin | []]. now inversion Hin; subst. }
  destruct Hsent as [-> C].
  exists (split_if_given cc_email), (split_if_given bcc_email).
  destruct (split_if_given_fields cc_email) as (Fc & Gc & Nc).
  destruct (split_if_given_fields bcc_email) as (Fb & Gb & Nb).
  split; [unfold recipient_list; now rewrite <- app_assoc |].
  split; [apply Forall_app; now split |].
  rewrite (compose_headers _ _ _ _ _ _ _ C).
  split; [rewrite !in_app_iff; right; left; cbn; tauto |].
  split.
  - destruct (truthy cc_email).
    + destruct (Gc eq_refl) as [Hne Hj]. split; [exact Hne |].
      rewrite Hj, !in_app_iff. right. right. now left.
    + split; [now apply Nc |]. rewrite !map_app, !in_app_iff. cbn.
      intros [[H1 | [H1 | []]] | [[H1 | [H1 | [H1 | []]]] | []]];
        discriminate H1.
  - destruct (truthy bcc_email); [now apply Gb | now apply Nb].
Qed.

Lemma cc_field_lists_the_cc_recipients_witness :
  exists r tr to_addrs msg,
    run Sample.world_ok []
        (_send_email_helper Sample.py0 Sample.env_configured
           (lit "a@example.org,z@example.org") (lit "subject") (lit "body")
           (Some (lit "b@example.org, c@example.org")) None false
           (lit "gmail")) = (Done r, tr)
    /\ transmissions tr = [(Some (lit "me@example.org"), to_addrs, msg)]
    /\ to_addrs = [lit "a@example.org,z@example.org"; lit "b@example.org";
                   lit " c@example.org"]
    /\ exists ccs bccs,
        to_addrs = lit "a@example.org,z@example.org" :: ccs ++ bccs
        /\ Forall (fun a => ~ In comma a) (ccs ++ bccs)
        /\ In (lit "To", Some (lit "a@example.org,z@example.org"))
              (mime_headers msg)
        /\ (ccs <> []
            /\ In (lit "Cc", Some (join [comma] ccs)) (mime_headers msg))
        /\ bccs = [].
Proof.
  eexists. eexists. eexists. eexists.
  split; [vm_compute; reflexivity |].
  split; [reflexivity |]. split; [reflexivity |].
  eapply (cc_field_lists_the_cc_recipients
            Sample.py0 Sample.env_configured Sample.world_ok
            (lit "a@example.org,z@example.org") (lit "subject") (lit "body")
            (Some (lit "b@example.org, c@example.org")) None false
            (lit "gmail"));
    [vm_compute; reflexivity | left; reflexivity].
Defined.

(** ** What the tools send *)

Lemma lstrip_blanks (lead : str) (c : char) (rest : str) :
  forallb is_space_char lead = true ->
  is_space_char c = false ->
  lstrip (lead ++ c :: rest) = c :: rest.
Proof.
  intros Hl Hc. induction lead as [| x lead IH]; cbn [app lstrip].
  - now rewrite Hc.
  - cbn [forallb] in Hl. apply andb_true_iff in Hl as [Hx Hl].
    rewrite Hx. now apply IH.
Qed.

(** [strip] takes blanks away at both ends and nothing else. *)
Lemma strip_padded (lead trail middle : str) (first last : char) :
  forallb is_space_char lead = true ->
  forallb is_space_char trail = true ->
  is_space_char first = false ->
  is_space_char last = false ->
  strip (lead ++ (first :: middle ++ [last]) ++ trail)
  = first :: middle ++ [last].
Proof.
  intros Hl Ht Hf Hla. unfold strip.
  cbn [app]. rewrite (lstrip_blanks lead first _ Hl Hf).
  change (first :: (middle ++ [last]) ++ trail)
    with ((first :: middle ++ [last]) ++ trail).
  rewrite rev_app_distr.
  change (first :: middle ++ [last]) with ((first :: middle) ++ [last]).
  rewrite (rev_app_distr (first :: middle) [last]). cbn [rev app].
  rewrite (lstrip_blanks (rev trail) last).
  - change (last :: rev middle ++ [first])
      with ([last] ++ (rev middle ++ [first])).
    rewrite rev_app_distr, rev_app_distr, rev_involutive. reflexivity.
  - rewrite forallb_forall in *. intros x Hx. apply Ht.
    now apply in_rev.
  - exact Hla.
Qed.

Lemma strip_notification_body (timestamp message : str) :
  strip (notification_body timestamp message)
  = notification_text timestamp message.
Proof.
  pose (middle :=
          [376; 8221; 8221]%N ++ lit " Notification from WatsonX Agent" ++ nl
          ++ nl
          ++ mark_date ++ lit " Time: " ++ timestamp ++ nl
          ++ mark_preview ++ lit " Message: " ++ message ++ nl
          ++ nl
          ++ lit "---" ++ nl
          ++ lit "This is an automated notification sent by WatsonX Orchestrate Agent").
  assert (Hb : notification_body timestamp message
               = nl ++ (287%N :: middle ++ [46%N]) ++ nl ++ lit "        ").
  { unfold notification_body, middle, mark_bell.
    change (lit "This is an automated notification sent by WatsonX Orchestrate Agent.")
      with (lit "This is an automated notification sent by WatsonX Orchestrate Agent" ++ [46%N]).
    cbn [app]. repeat rewrite <- app_assoc. reflexivity. }
  assert (Ht : notification_text timestamp message
               = 287%N :: middle ++ [46%N]).
  { unfold notification_text, middle, mark_bell.
    change (lit "This is an automated notification sent by WatsonX Orchestrate Agent.")
      with (lit "This is an automated notification sent by WatsonX Orchestrate Agent" ++ [46%N]).
    cbn [app]. repeat rewrite <- app_assoc. reflexivity. }
  rewrite Hb, Ht. apply strip_padded; reflexivity.
Qed.

(** A send either went through all six calls, and then its result carries
    the clock reading taken after [quit], or it failed before the end. *)
Lemma send_helper_outcomes
      (py : Builtins) (env : environ) (w : world)
      (to_email subject body : str) (cc_email bcc_email : option str)
      (is_html : bool) (name : str) (r : send_result) (tr : list event) :
  run w [] (_send_email_helper py env to_email subject body cc_email
                               bcc_email is_html name) = (Done r, tr) ->
  (exists t msg,
      r = mkSendResult true (lit "Email sent successfully to " ++ to_email)
                       (Some t)
      /\ map kind_of tr = send_script
      /\ forallb returned tr = true
      /\ last_event tr = Some (Ev Now_isoformat (Returned t))
      /\ compose (env (lit "EMAIL_ADDRESS")) to_email subject body cc_email
                 is_html = inr msg
      /\ transmissions tr
         = [(env (lit "EMAIL_ADDRESS"),
             recipient_list to_email cc_email bcc_email, msg)])
  \/ (send_success r = false
      /\ ~ (map kind_of tr = send_script /\ forallb returned tr = true)).
Proof.
  intros H. unfold _send_email_helper in H.
  rewrite run_try_except in H. unfold send_body in H. run_steps H.
  destruct (EmailConfig_init py env name) as [e | config] eqn:E.
  { rewrite run_send_handlers_message in H. injection H as <- <-.
    right. split; [reflexivity |]. intros [Hk _]; discriminate. }
  apply EmailConfig_init_credentials in E as [Ea Ep].
  run_steps H.
  destruct (negb (validate_credentials config)).
  { injection H as <- <-.
    right. split; [reflexivity |]. intros [Hk _]; discriminate. }
  run_steps H. rewrite Ea in H.
  destruct (compose (env (lit "EMAIL_ADDRESS")) to_email subject body
                    cc_email is_html) as [e | msg] eqn:C.
  { rewrite run_send_handlers_message in H. injection H as <- <-.
    right. split; [reflexivity |]. intros [Hk _]; discriminate. }
  run_steps H.
  destruct (get_smtp_config config) as [e | smtp_config].
  { rewrite run_send_handlers_message in H. injection H as <- <-.
    right. split; [reflexivity |]. intros [Hk _]; discriminate. }
  run_steps H.
  answer H;
    [| rewrite run_send_handlers_message in H; injection H as <- <-;
       right; split; [reflexivity |]; intros [Hk _]; discriminate].
  answer H;
    [| rewrite run_send_handlers_message in H; injection H as <- <-;
       right; split; [reflexivity |]; intros [Hk _]; discriminate].
  answer H;
    [| rewrite run_send_handlers_message in H; injection H as <- <-;
       right; split; [reflexivity |]; intros [Hk _]; discriminate].
  destruct (as_string py msg) as [e | u]; run_steps H.
  { rewrite run_send_handlers_message in H. injection H as <- <-.
    right. split; [reflexivity |]. intros [Hk _]; discriminate. }
  answer H;
    [| rewrite run_send_handlers_message in H; injection H as <- <-;
       right; split; [reflexivity |]; intros [Hk _]; discriminate].
  answer H;
    [| rewrite run_send_handlers_message in H; injection H as <- <-;
       right; split; [reflexivity |]; intros [Hk _]; discriminate].
  answer H.
  - injection H as <- <-. left. eexists. exists msg. now repeat split.
  - rewrite run_send_handlers_message in H. injection H as <- <-.
    right. split; [reflexivity |]. intros [_ Hr]; discriminate.
Qed.



(** X13.  [send_quick_notification] reads the clock before anything else.
    When the clock raises, no call follows and the report is the error of
    the clock.  When it answers [t], the rest of the run is one send: a
    success is reported exactly when all six calls of the send returned,
    and then the one message went to [recipient] alone, with the subject
    ["Notification - "] followed by [t] and, as its only part, the text of
    the notification without the blank lines and spaces around it, of type
    text/plain, whatever [t] and the message contain. *)
Theorem notification_reports_what_happened
        (py : Builtins) (env : environ) (w : world)
        (recipient message : str) (text : str) (tr : list event) :
  run w [] (send_quick_notification py env recipient message)
  = (Done text, tr) ->
  (exists e,
      tr = [Ev (Now_strftime (lit "%Y-%m-%d %H:%M:%S")) (Raised e)]
      /\ text = mark_fail ++ lit " Error sending notification: "
                ++ exn_text e)
  \/ exists t rest,
      tr = Ev (Now_strftime (lit "%Y-%m-%d %H:%M:%S")) (Returned t) :: rest
      /\ ((exists msg,
              text = mark_bell ++ lit " Notification sent successfully to "
                     ++ recipient ++ nl
                     ++ mark_preview ++ lit " Message: " ++ message
              /\ map kind_of rest = send_script
              /\ forallb returned rest = true
              /\ transmissions rest
                 = [(env (lit "EMAIL_ADDRESS"), [recipient], msg)]
              /\ In (lit "Subject", Some (lit "Notification - " ++ t))
                    (mime_headers msg)
              /\ mime_parts msg
                 = [mkMIMEText (notification_text t message) (lit "plain")])
          \/ (exists reason,
                 text = mark_fail ++ lit " Failed to send notification: "
                        ++ reason
                 /\ ~ (map kind_of rest = send_script
                       /\ forallb returned rest = true))).
Proof.
  intros H. unfold send_quick_notification in H.
  rewrite run_try_except, run_bind, run_perform in H.
  destruct (w str [] (Now_strftime (lit "%Y-%m-%d %H:%M:%S"))) as [t | e].
  - right. exists t. cbv zeta beta iota in H. rewrite run_bind in H.
    change ([] ++ [Ev (Now_strftime (lit "%Y-%m-%d %H:%M:%S")) (Returned t)])
      with ([Ev (Now_strftime (lit "%Y-%m-%d %H:%M:%S")) (Returned t)] ++ [])
      in H.
    rewrite run_after in H.
    destruct (never_raises_run
                _ (after w [Ev (Now_strftime (lit "%Y-%m-%d %H:%M:%S"))
                               (Returned t)]) _
                (send_helper_never_raises py env recipient
                   (lit "Notification - " ++ t)
                   (strip (notification_body t message))
                   None None false (lit "gmail")) [])
      as (r & rest & Hr).
    rewrite Hr in H. cbn [fst snd app] in H. exists rest.
    apply send_helper_outcomes in Hr.
    destruct Hr
      as [(t' & msg & -> & Hk & Hret & _ & C & Hsent) | (Hfail & Hnot)].
    + cbn [send_success run] in H. injection H as <- <-.
      split; [reflexivity |]. left. exists msg.
      split; [reflexivity |]. split; [exact Hk |]. split; [exact Hret |].
      split; [exact Hsent |].
      split; [rewrite (compose_headers _ _ _ _ _ _ _ C), !in_app_iff;
              right; left; cbn; tauto |].
      now rewrite (compose_parts _ _ _ _ _ _ _ C), strip_notification_body.
    + rewrite Hfail in H. cbn [run] in H. injection H as <- <-.
      split; [reflexivity |]. right. now exists (send_message r).
  - cbn [run] in H. injection H as <- <-. left. now exists e.
Qed.

Lemma notification_reports_what_happened_witness :
  exists text tr t rest msg,
    run Sample.world_ok []
        (send_quick_notification Sample.py0 Sample.env_configured
           (lit "a@example.org") (lit "  disk full  "))
    = (Done text, tr)
    /\ tr = Ev (Now_strftime (lit "%Y-%m-%d %H:%M:%S")) (Returned t) :: rest
    /\ transmissions rest
       = [(Some (lit "me@example.org"), [lit "a@example.org"], msg)]
    /\ In (lit "Subject", Some (lit "Notification - " ++ t))
          (mime_headers msg)
    /\ mime_parts msg
       = [mkMIMEText (notification_text t (lit "  disk full  "))
                     (lit "plain")].
Proof.
  eexists. eexists.
  destruct (notification_reports_what_happened
              Sample.py0 Sample.env_configured Sample.world_ok
              (lit "a@example.org") (lit "  disk full  ") _ _ eq_refl)
    as [(e & He & _)
       | (t & rest & Htr & [(msg & _ & _ & _ & Hs & Hsub & Hp)
                           | (reason & Hr & _)])].
  - discriminate He.
  - exists t, rest, msg. split; [reflexivity |].
    split; [exact Htr |]. split; [exact Hs |]. split; [exact Hsub | exact Hp].
  - discriminate Hr.
Defined.

(** ** What the reader reports *)





(** ** What the connection test reports *)



